(** * dw-swipeable: the touch-gesture state machine and its animation loops

    A shallow embedding of [src/dw-swipeable.js] (class [DwSwipeable]): the
    three touch handlers, the two [requestAnimationFrame] loops, the
    transform applier and the action dispatcher, followed by the properties
    the specification states about them.

    Numbers.  The class is embedded twice.  The first embedding takes a
    JavaScript number as an exact rational or one of the three non-finite
    values [+Infinity], [-Infinity], [NaN]: the arithmetic of the
    non-finite values follows IEEE 754 as ECMAScript prescribes it, finite
    arithmetic is exact, and signed zeros are not distinguished (every
    division by zero of the widget has a numerator or a result that goes
    through [Math.abs], or divides by a difference of two integer time
    stamps, which is [+0] when it is zero).  It serves the decisions of
    the handlers, each a comparison of one computed number with a setting,
    and what the loops do with an infinite step or an undefined offset.
    The second embedding, [Binary64], takes a number as an IEEE 754
    binary64 value and rounds every operation; it serves the course of the
    two animation loops, where a rounded step is added to a rounded offset
    frame after frame. *)

From Stdlib Require Import ZArith QArith Qabs Lqa Lia List Ascii String Bool
  SpecFloat.
Import ListNotations.

Local Open Scope Q_scope.

(** ** JavaScript numbers *)

Module JS.

Inductive num : Type :=
| Fin (q : Q)
| PInf
| NInf
| NaN.

Definition Qlt_bool (a b : Q) : bool := negb (Qle_bool b a).

Definition of_Z (z : Z) : num := Fin (inject_Z z).

(** Unary minus. *)
Definition neg (a : num) : num :=
  match a with
  | Fin q => Fin (- q)
  | PInf => NInf
  | NInf => PInf
  | NaN => NaN
  end.

(** [a + b]. *)
Definition add (a b : num) : num :=
  match a, b with
  | NaN, _ | _, NaN => NaN
  | Fin x, Fin y => Fin (x + y)
  | PInf, NInf | NInf, PInf => NaN
  | PInf, _ | _, PInf => PInf
  | NInf, _ | _, NInf => NInf
  end.

(** [a - b]. *)
Definition sub (a b : num) : num := add a (neg b).

(** The sign of a number that is not [NaN]: [Lt], [Eq] or [Gt] for
    negative, zero, positive. *)
Definition sign (a : num) : comparison :=
  match a with
  | Fin q => q ?= 0
  | PInf => Gt
  | NInf => Lt
  | NaN => Eq
  end.

Definition signed_inf (c : comparison) : num :=
  match c with
  | Gt => PInf
  | Lt => NInf
  | Eq => NaN
  end.

Definition sign_mul (c d : comparison) : comparison :=
  match c, d with
  | Eq, _ | _, Eq => Eq
  | Gt, Gt | Lt, Lt => Gt
  | Gt, Lt | Lt, Gt => Lt
  end.

(** [a * b]: infinity times zero is [NaN]. *)
Definition mul (a b : num) : num :=
  match a, b with
  | NaN, _ | _, NaN => NaN
  | Fin x, Fin y => Fin (x * y)
  | _, _ => signed_inf (sign_mul (sign a) (sign b))
  end.

(** [a / b]: a non-zero number over zero is an infinity of the numerator's
    sign, zero over zero and infinity over infinity are [NaN], a finite
    number over an infinity is zero. *)
Definition div (a b : num) : num :=
  match a, b with
  | NaN, _ | _, NaN => NaN
  | Fin x, Fin y =>
      if Qeq_bool y 0 then signed_inf (x ?= 0) else Fin (x / y)
  | Fin _, _ => Fin 0
  | _, Fin y => signed_inf (sign_mul (sign a) (if Qlt_bool y 0 then Lt else Gt))
  | _, _ => NaN
  end.

(** [Math.abs]. *)
Definition abs (a : num) : num :=
  match a with
  | Fin q => Fin (Qabs q)
  | PInf | NInf => PInf
  | NaN => NaN
  end.

(** [a < b]; every comparison with [NaN] is false. *)
Definition lt (a b : num) : bool :=
  match a, b with
  | NaN, _ | _, NaN => false
  | Fin x, Fin y => Qlt_bool x y
  | NInf, NInf => false
  | NInf, _ => true
  | _, PInf => match a with PInf => false | _ => true end
  | _, _ => false
  end.

(** [a <= b]. *)
Definition le (a b : num) : bool :=
  match a, b with
  | NaN, _ | _, NaN => false
  | Fin x, Fin y => Qle_bool x y
  | NInf, _ => true
  | _, PInf => true
  | _, _ => false
  end.

(** [a > b] and [a >= b]. *)
Definition gt (a b : num) : bool := lt b a.
Definition ge (a b : num) : bool := le b a.

(** [Math.max(a, b)] and [Math.min(a, b)]: [NaN] when an argument is. *)
Definition max (a b : num) : num :=
  match a, b with
  | NaN, _ | _, NaN => NaN
  | _, _ => if le a b then b else a
  end.

Definition min (a b : num) : num :=
  match a, b with
  | NaN, _ | _, NaN => NaN
  | _, _ => if le a b then a else b
  end.

(** A property or variable that may hold [undefined]; the arithmetic and
    the comparisons of the widget convert [undefined] to [NaN]. *)
Definition to_num (v : option num) : num :=
  match v with
  | Some n => n
  | None => NaN
  end.

(** Truthiness of a string value that may be [undefined]. *)
Definition truthy (v : option string) : bool :=
  match v with
  | Some s => negb (String.eqb s EmptyString)
  | None => false
  end.

Definition is_nan (a : num) : bool :=
  match a with NaN => true | _ => false end.

(** Equality of numbers as values: finite numbers as rationals. *)
Definition eqv (a b : num) : Prop :=
  match a, b with
  | Fin x, Fin y => x == y
  | PInf, PInf | NInf, NInf | NaN, NaN => True
  | _, _ => False
  end.

End JS.

Import JS.

(** ** The widget's data *)

(** [leftAction] / [rightAction]: [{name, caption, icon}]; a property that
    the host left out reads as [undefined]. *)
Record ActionSpec : Type := {
  name : option string;
  caption : option string;
  icon : option string
}.

(** [e.changedTouches[0]] of a touch event: finite coordinates. *)
Record Touch : Type := {
  clientX : Q;
  clientY : Q
}.

(** The two values of the local [direction] of [_swipe] and [_reset]. *)
Inductive direction : Type := LEFT | RIGHT.

(** The closures [step] handed to [window.requestAnimationFrame], with the
    variables they capture. *)
Inductive callback : Type :=
| swipe_step (d : direction) (pixelPerFrame : num)
| reset_step (d : direction) (pixelPerFrame : num).

(** A template literal after substitution and before the numbers are
    printed: literal text and interpolated numbers. *)
Inductive piece : Type :=
| Lit (s : string)
| Val (n : num).

Definition template : Type := list piece.

(** [new CustomEvent('action', {detail: {name}})]. *)
Record CustomEvent : Type := {
  type : string;
  detail_name : string
}.

(** The host-set properties and the layout read through [offsetWidth] and
    [offsetHeight]; no method of the class writes them. *)
Record Props : Type := {
  leftAction : option ActionSpec;
  rightAction : option ActionSpec;
  threshold : num;
  velocity : num;
  animationTime : num;
  offsetWidth : Z;
  offsetHeight : Z
}.

(** [style.transform] of the five elements looked up in
    [connectedCallback].  A placeholder element exists exactly when its
    action is configured; the field of an element that does not exist is
    never written. *)
Record Styles : Type := {
  _content : template;
  _leftActionPlaceholder : template;
  _leftActionPlaceholderContent : template;
  _rightActionPlaceholder : template;
  _rightActionPlaceholderContent : template
}.

(** An instance of [DwSwipeable] after [connectedCallback], together with
    the events it has dispatched (oldest first) and the callbacks waiting
    for the next animation frame. *)
Record DwSwipeable : Type := {
  props : Props;
  _touchStartPoints : option (num * num);
  _touchStartTime : option num;
  _translateX : option num;
  _scaleX : option num;
  _placeholderTextScaleX : option num;
  style : Styles;
  dispatched : list CustomEvent;
  frameRequests : list callback
}.

Definition set_touchStart (p : num * num) (t : num) (w : DwSwipeable) : DwSwipeable :=
  {| props := props w;
     _touchStartPoints := Some p;
     _touchStartTime := Some t;
     _translateX := _translateX w;
     _scaleX := _scaleX w;
     _placeholderTextScaleX := _placeholderTextScaleX w;
     style := style w;
     dispatched := dispatched w;
     frameRequests := frameRequests w |}.

Definition set_translateX (v : option num) (w : DwSwipeable) : DwSwipeable :=
  {| props := props w;
     _touchStartPoints := _touchStartPoints w;
     _touchStartTime := _touchStartTime w;
     _translateX := v;
     _scaleX := _scaleX w;
     _placeholderTextScaleX := _placeholderTextScaleX w;
     style := style w;
     dispatched := dispatched w;
     frameRequests := frameRequests w |}.

Definition set_transform (tx sx ptsx : num) (st : Styles) (w : DwSwipeable) : DwSwipeable :=
  {| props := props w;
     _touchStartPoints := _touchStartPoints w;
     _touchStartTime := _touchStartTime w;
     _translateX := Some tx;
     _scaleX := Some sx;
     _placeholderTextScaleX := Some ptsx;
     style := st;
     dispatched := dispatched w;
     frameRequests := frameRequests w |}.

(** [this.dispatchEvent(ev)]. *)
Definition dispatchEvent (ev : CustomEvent) (w : DwSwipeable) : DwSwipeable :=
  {| props := props w;
     _touchStartPoints := _touchStartPoints w;
     _touchStartTime := _touchStartTime w;
     _translateX := _translateX w;
     _scaleX := _scaleX w;
     _placeholderTextScaleX := _placeholderTextScaleX w;
     style := style w;
     dispatched := dispatched w ++ [ev];
     frameRequests := frameRequests w |}.

Definition set_frameRequests (l : list callback) (w : DwSwipeable) : DwSwipeable :=
  {| props := props w;
     _touchStartPoints := _touchStartPoints w;
     _touchStartTime := _touchStartTime w;
     _translateX := _translateX w;
     _scaleX := _scaleX w;
     _placeholderTextScaleX := _placeholderTextScaleX w;
     style := style w;
     dispatched := dispatched w;
     frameRequests := l |}.

(** [window.requestAnimationFrame(cb)]: run [cb] at the next frame. *)
Definition requestAnimationFrame (cb : callback) (w : DwSwipeable) : DwSwipeable :=
  set_frameRequests (frameRequests w ++ [cb]) w.

(** A handler returns normally or throws the [TypeError] of reading an
    index of [undefined]. *)
Inductive result (A : Type) : Type :=
| Ok (a : A)
| TypeError.

Arguments Ok {A} a.
Arguments TypeError {A}.

(** ** The transform applier and the action dispatcher *)

(** [`translateX(${tx}px)`] *)
Definition content_transform (tx : num) : template :=
  [Lit "translateX("; Val tx; Lit "px)"].

(** [`translateX(${tx}px) scaleX(${sx}`] *)
Definition placeholder_transform (tx sx : num) : template :=
  [Lit "translateX("; Val tx; Lit "px) scaleX("; Val sx].

(** [`scaleX(${ptsx})`] *)
Definition placeholder_content_transform (ptsx : num) : template :=
  [Lit "scaleX("; Val ptsx; Lit ")"].

Definition clamp_translateX (position width : num) : num :=
  if lt position (Fin 0) then max position (neg width) else min position width.

Definition scaleX_of (tx : num) : num := max (Fin 1) (abs (div tx (Fin 100))).

Definition placeholderTextScaleX_of (tx : num) : num :=
  min (Fin 1) (div (Fin 100) (abs tx)).

Definition _transform (position : num) (w : DwSwipeable) : DwSwipeable :=
  let tx := clamp_translateX position (of_Z (offsetWidth (props w))) in
  let sx := scaleX_of tx in
  let ptsx := placeholderTextScaleX_of tx in
  let st := style w in
  let st' :=
    {| _content := content_transform tx;
       _leftActionPlaceholder :=
         match leftAction (props w) with
         | Some _ => placeholder_transform tx sx
         | None => _leftActionPlaceholder st
         end;
       _leftActionPlaceholderContent :=
         match leftAction (props w) with
         | Some _ => placeholder_content_transform ptsx
         | None => _leftActionPlaceholderContent st
         end;
       _rightActionPlaceholder :=
         match rightAction (props w) with
         | Some _ => placeholder_transform tx sx
         | None => _rightActionPlaceholder st
         end;
       _rightActionPlaceholderContent :=
         match rightAction (props w) with
         | Some _ => placeholder_content_transform ptsx
         | None => _rightActionPlaceholderContent st
         end |} in
  set_transform tx sx ptsx st' w.

(** The local [actionName] of [_dispatchAction]. *)
Definition actionName (action : direction) (p : Props) : option string :=
  match action, leftAction p, rightAction p with
  | LEFT, Some a, _ => name a
  | RIGHT, _, Some a => name a
  | _, _, _ => None
  end.

Definition _dispatchAction (action : direction) (w : DwSwipeable) : DwSwipeable :=
  match actionName action (props w) with
  | Some n =>
      if negb (truthy (Some n))
      then w
      else dispatchEvent {| type := "action"; detail_name := n |} w
  | None => w
  end.

(** ** The animation loops *)

(** The local [transformX] of [step] in [_swipe]: one step of
    [pixelPerFrame] toward the signed width, clamped there. *)
Definition swipe_transformX (d : direction) (pixelPerFrame width tx : num) : num :=
  match d with
  | LEFT => max (sub tx pixelPerFrame) (neg width)
  | RIGHT => min (add tx pixelPerFrame) width
  end.

(** The body of [step] in [_swipe]. *)
Definition swipe_frame (d : direction) (pixelPerFrame : num) (w : DwSwipeable)
  : DwSwipeable :=
  let tx := to_num (_translateX w) in
  let width := of_Z (offsetWidth (props w)) in
  if ge (abs tx) width
  then set_translateX None (_dispatchAction d w)
  else
    let transformX := swipe_transformX d pixelPerFrame width tx in
    requestAnimationFrame (swipe_step d pixelPerFrame) (_transform transformX w).

(** The test of [step] in [_reset]. *)
Definition reset_arrived (d : direction) (tx : num) : bool :=
  match d with
  | LEFT => ge tx (Fin 0)
  | RIGHT => le tx (Fin 0)
  end.

(** The local [transformX] of [step] in [_reset]: one step of
    [pixelPerFrame] toward 0, clamped there. *)
Definition reset_transformX (d : direction) (pixelPerFrame tx : num) : num :=
  match d with
  | LEFT => min (add tx pixelPerFrame) (Fin 0)
  | RIGHT => max (sub tx pixelPerFrame) (Fin 0)
  end.

(** The body of [step] in [_reset]. *)
Definition reset_frame (d : direction) (pixelPerFrame : num) (w : DwSwipeable)
  : DwSwipeable :=
  let tx := to_num (_translateX w) in
  if reset_arrived d tx
  then set_translateX None w
  else
    let transformX := reset_transformX d pixelPerFrame tx in
    requestAnimationFrame (reset_step d pixelPerFrame) (_transform transformX w).

Definition run_callback (cb : callback) (w : DwSwipeable) : DwSwipeable :=
  match cb with
  | swipe_step d ppf => swipe_frame d ppf w
  | reset_step d ppf => reset_frame d ppf w
  end.

(** One display refresh: the callbacks requested so far run in order; what
    they request waits for the next refresh. *)
Definition animation_frame (w : DwSwipeable) : DwSwipeable :=
  fold_left (fun acc cb => run_callback cb acc) (frameRequests w)
            (set_frameRequests [] w).

(** [n] display refreshes with no touch event in between. *)
Fixpoint run_frames (n : nat) (w : DwSwipeable) : DwSwipeable :=
  match n with
  | O => w
  | S k => run_frames k (animation_frame w)
  end.

Definition direction_of (tx : num) : direction :=
  if lt tx (Fin 0) then LEFT else RIGHT.

(** The local [pixelPerFrame] of [_swipe]. *)
Definition swipe_pixelPerFrame (w : DwSwipeable) : num :=
  let tx := to_num (_translateX w) in
  let width := of_Z (offsetWidth (props w)) in
  let diff := if lt tx (Fin 0) then sub (neg width) tx else sub width tx in
  abs (div diff (mul (animationTime (props w)) (Fin 0.06))).

Definition _swipe (w : DwSwipeable) : DwSwipeable :=
  let direction := direction_of (to_num (_translateX w)) in
  requestAnimationFrame (swipe_step direction (swipe_pixelPerFrame w)) w.

(** The local [pixelPerFrame] of [_reset]. *)
Definition reset_pixelPerFrame (w : DwSwipeable) : num :=
  abs (div (to_num (_translateX w)) (mul (animationTime (props w)) (Fin 0.06))).

Definition _reset (w : DwSwipeable) : DwSwipeable :=
  let direction := direction_of (to_num (_translateX w)) in
  requestAnimationFrame (reset_step direction (reset_pixelPerFrame w)) w.

(** ** The touch handlers *)

(** [now] is the value of [new Date().getTime()]. *)
Definition _onTouchStart (e : Touch) (now : Z) (w : DwSwipeable) : DwSwipeable :=
  set_touchStart (Fin (clientX e), Fin (clientY e)) (of_Z now) w.

Definition is_undefined {A : Type} (v : option A) : bool :=
  match v with
  | None => true
  | Some _ => false
  end.

Definition _onTouchMove (e : Touch) (w : DwSwipeable) : result DwSwipeable :=
  match _touchStartPoints w with
  | None => TypeError
  | Some (startX, startY) =>
      let diffX := sub (Fin (clientX e)) startX in
      let diffY := sub (Fin (clientY e)) startY in
      if is_undefined (_translateX w)
         && (lt (div (abs diffX) (abs diffY)) (Fin 1)
             || gt (abs diffY) (of_Z (offsetHeight (props w)))
             || le (abs diffX) (threshold (props w)))
      then Ok w
      else Ok (_transform diffX w)
  end.

Definition _onTouchEnd (e : Touch) (now : Z) (w : DwSwipeable) : result DwSwipeable :=
  if is_undefined (_translateX w) then Ok w
  else
    match _touchStartPoints w with
    | None => TypeError
    | Some (startX, _) =>
        let diffX := sub (Fin (clientX e)) startX in
        let timeDiff := sub (of_Z now) (to_num (_touchStartTime w)) in
        let velocity_ := div (abs diffX) timeDiff in
        if gt velocity_ (velocity (props w))
           || gt (abs diffX) (div (of_Z (offsetWidth (props w))) (Fin 2))
        then Ok (_swipe w)
        else Ok (_reset w)
    end.

(** ** Observations *)

(** The state of the gesture as the specification names it, read off the
    instance: an animation is running when its [step] is waiting for a
    frame; otherwise a transform is in progress exactly when [_translateX]
    is defined. *)
Inductive phase : Type := IDLE | TRACKING | COMMITTING | RESETTING.

Definition phase_of (w : DwSwipeable) : phase :=
  match frameRequests w with
  | swipe_step _ _ :: _ => COMMITTING
  | reset_step _ _ :: _ => RESETTING
  | [] =>
      match _translateX w with
      | None => IDLE
      | Some _ => TRACKING
      end
  end.

(** Nesting depth of the parentheses of a string and of a template: [None]
    when a closing parenthesis has no opening one.  The printed form of a
    number holds no parenthesis. *)
Fixpoint paren_depth (s : string) (depth : nat) : option nat :=
  match s with
  | EmptyString => Some depth
  | String c rest =>
      if Ascii.eqb c "("%char then paren_depth rest (S depth)
      else if Ascii.eqb c ")"%char then
        match depth with
        | O => None
        | S d => paren_depth rest d
        end
      else paren_depth rest depth
  end.

Fixpoint template_depth (t : template) (depth : nat) : option nat :=
  match t with
  | [] => Some depth
  | Lit s :: rest =>
      match paren_depth s depth with
      | Some d => template_depth rest d
      | None => None
      end
  | Val _ :: rest => template_depth rest depth
  end.

(** Every opened function application of the transform list is closed. *)
Definition complete (t : template) : bool :=
  match template_depth t 0 with
  | Some O => true
  | _ => false
  end.

(** A widget as the demo page mounts it: both actions named [DELETE],
    default [threshold], [velocity] and [animationTime], 300 by 60 pixels. *)
Definition demo_action : ActionSpec :=
  {| name := Some "DELETE"%string; caption := Some "Delete"%string;
     icon := Some "delete"%string |}.

Definition demo_props : Props :=
  {| leftAction := Some demo_action;
     rightAction := Some demo_action;
     threshold := Fin 10;
     velocity := Fin 0.3;
     animationTime := Fin 200;
     offsetWidth := 300;
     offsetHeight := 60 |}.

Definition no_style : Styles :=
  {| _content := [];
     _leftActionPlaceholder := [];
     _leftActionPlaceholderContent := [];
     _rightActionPlaceholder := [];
     _rightActionPlaceholderContent := [] |}.

Definition connected (p : Props) : DwSwipeable :=
  {| props := p;
     _touchStartPoints := None;
     _touchStartTime := None;
     _translateX := None;
     _scaleX := None;
     _placeholderTextScaleX := None;
     style := no_style;
     dispatched := [];
     frameRequests := [] |}.

(** The same widget with no [rightAction]. *)
Definition left_only_props : Props :=
  {| leftAction := Some demo_action;
     rightAction := None;
     threshold := Fin 10;
     velocity := Fin 0.3;
     animationTime := Fin 200;
     offsetWidth := 300;
     offsetHeight := 60 |}.

(** The demo widget touched at the origin at time 1000 and dragged
    horizontally to [x]. *)
Definition tracking (x : Q) : DwSwipeable :=
  _transform (Fin x)
    (_onTouchStart {| clientX := 0; clientY := 0 |} 1000 (connected demo_props)).

Definition tracking_left_150 : DwSwipeable := tracking (-150).
Definition tracking_left_20 : DwSwipeable := tracking (-20).
Definition tracking_at_zero : DwSwipeable := tracking 0.

(** ** The vocabulary of the properties *)

(** The three conditions of the specification on a move by [(dx, dy)], for
    a widget of height [h] and a threshold [T]. *)
Definition begins_transform (dx dy : Q) (h : Z) (T : Q) : Prop :=
  (dy == 0 \/ 1 <= Qabs dx / Qabs dy) /\
  Qabs dy <= inject_Z h /\
  T < Qabs dx.



(** The direction a requested step has captured. *)
Definition callback_direction (cb : callback) : direction :=
  match cb with
  | swipe_step d _ => d
  | reset_step d _ => d
  end.

(** The claim that swiping toward a side with no action is disabled: a
    touch move whose horizontal displacement points toward that side never
    begins a transform. *)
Definition swipe_toward_unconfigured_side_disabled : Prop :=
  forall (w w' : DwSwipeable) (e : Touch) (sx sy : Q),
    _translateX w = None ->
    _touchStartPoints w = Some (Fin sx, Fin sy) ->
    (rightAction (props w) = None /\ sx < clientX e) \/
    (leftAction (props w) = None /\ clientX e < sx) ->
    _onTouchMove e w = Ok w' ->
    _translateX w' = None.

(** The test that ends a reset, on a finite offset. *)
Definition reset_stops (d : direction) (x : Q) : Prop :=
  match d with
  | LEFT => 0 <= x
  | RIGHT => x <= 0
  end.

(** ** Whole gestures *)


(** ** An infinite animation time *)

(** The demo widget with an infinite [animationTime], dragged to [x]. *)
Definition endless_props : Props :=
  {| leftAction := Some demo_action;
     rightAction := Some demo_action;
     threshold := Fin 10;
     velocity := Fin 0.3;
     animationTime := PInf;
     offsetWidth := 300;
     offsetHeight := 60 |}.

Definition endless_tracking (x : Q) : DwSwipeable :=
  _transform (Fin x)
    (_onTouchStart {| clientX := 0; clientY := 0 |} 1000 (connected endless_props)).

(** ** Rendering *)

(** The shadow tree [render] describes: elements with their tag, bound
    attributes, classes and children, and bound text.  A bound value that
    is [undefined] is kept as such. *)
#[warnings="-register-all"]
Inductive node : Type :=
| element (tag : string) (attrs : list (string * option string))
          (classes : list string) (children : list node)
| text (s : option string).

(** The placeholder of one side: the [div] that carries the action's name,
    its [.placeholder-content] block with the icon, when the action has
    one, and the caption. *)
Definition render_placeholder (side_class icon_class : string)
           (justify : list string) (a : ActionSpec) : node :=
  element "div" [("name"%string, name a)]
    ([side_class; "layout"%string; "horizontal"%string; "center"%string]
     ++ justify)
    [element "div" []
       ["placeholder-content"%string; "layout"%string; "horizontal"%string;
        "center"%string; "body1"%string]
       ((if truthy (icon a)
         then [element "kerika-icon" [("name"%string, icon a)] [icon_class] []]
         else [])
        ++ [element "div" [] [] [text (caption a)]])].

(** [render()]. *)
Definition render (p : Props) : list node :=
  match leftAction p with
  | Some a => [render_placeholder "left-action-placeholder" "left-action-icon"
                 ["end-justified"%string] a]
  | None => []
  end
  ++ match rightAction p with
     | Some a => [render_placeholder "right-action-placeholder" "right-action-icon"
                    [] a]
     | None => []
     end
  ++ [element "div" [] ["content"%string] [element "slot" [] [] []]].

(** A property holds a value. *)
Definition is_some {A : Type} (v : option A) : bool := negb (is_undefined v).

(** The two forms of selector the class uses: [.c] and [.a .c]. *)
Inductive selector : Type :=
| by_class (c : string)
| descendant (a c : string).

Definition has_class (c : string) (classes : list string) : bool :=
  existsb (String.eqb c) classes.

(** Whether [n] or one of its descendants has the class [c] and, when
    [anc] names a class, an ancestor with that class; [inside] tells that
    such an ancestor was passed. *)
Fixpoint matches (anc : option string) (c : string) (inside : bool) (n : node)
  : bool :=
  match n with
  | text _ => false
  | element _ _ classes children =>
      (inside && has_class c classes)
      || (let inside' :=
            inside || match anc with
                      | Some a => has_class a classes
                      | None => false
                      end in
          (fix any (l : list node) : bool :=
             match l with
             | [] => false
             | k :: rest => matches anc c inside' k || any rest
             end) children)
  end.

(** Whether [shadowRoot.querySelector(sel)] finds an element in the
    tree, rather than returning [null]. *)
Definition querySelector (sel : selector) (tree : list node) : bool :=
  match sel with
  | by_class c => existsb (matches None c true) tree
  | descendant a c => existsb (matches (Some a) c false) tree
  end.

(** ** The life cycle of the element *)

(** The three methods registered as listeners. *)
Inductive method : Type := m_onTouchStart | m_onTouchMove | m_onTouchEnd.

(** A function object: [this._onTouchStart] is the method of the
    prototype; every evaluation of [this._onTouchStart.bind(this)] creates
    a new function object, told from the others by its rank among the
    bound functions the instance has created. *)
Inductive func : Type :=
| Method (m : method)
| Bound (m : method) (rank : nat).

Definition method_eqb (a b : method) : bool :=
  match a, b with
  | m_onTouchStart, m_onTouchStart => true
  | m_onTouchMove, m_onTouchMove => true
  | m_onTouchEnd, m_onTouchEnd => true
  | _, _ => false
  end.

(** Identity of function objects. *)
Definition func_eqb (f g : func) : bool :=
  match f, g with
  | Method a, Method b => method_eqb a b
  | Bound a i, Bound b j => method_eqb a b && Nat.eqb i j
  | _, _ => false
  end.

(** An entry of the event listener list of an element (none of the
    listeners of the class captures). *)
Record listener : Type := {
  on : string;
  callback_of : func
}.

Definition listener_eqb (a b : listener) : bool :=
  String.eqb (on a) (on b) && func_eqb (callback_of a) (callback_of b).

(** [el.addEventListener(type, f)]: appended unless the list holds the
    same type with the same function object. *)
Definition addEventListener (type_ : string) (f : func) (l : list listener)
  : list listener :=
  if existsb (listener_eqb {| on := type_; callback_of := f |}) l
  then l
  else l ++ [{| on := type_; callback_of := f |}].

(** [el.removeEventListener(type, f)]: the entry with the same type and
    the same function object is removed, if there is one. *)
Fixpoint removeEventListener (type_ : string) (f : func) (l : list listener)
  : list listener :=
  match l with
  | [] => []
  | x :: rest =>
      if listener_eqb {| on := type_; callback_of := f |} x
      then rest
      else x :: removeEventListener type_ f rest
  end.

(** Which of the five element fields of the instance hold an element
    (rather than [undefined] or [null]). *)
Record Handles : Type := {
  has_content : bool;
  has_leftActionPlaceholder : bool;
  has_leftActionPlaceholderContent : bool;
  has_rightActionPlaceholder : bool;
  has_rightActionPlaceholderContent : bool
}.

(** The element in its document: the instance, its element fields, the
    event listener list of its [.content] element, which is rendered
    whatever the properties and stays the same element from one update to
    the next, and the number of bound functions created so far. *)
Record Component : Type := {
  instance : DwSwipeable;
  handles : Handles;
  listeners : list listener;
  binds : nat
}.

(** A new element with the properties [p], before it is connected. *)
Definition created (p : Props) : Component :=
  {| instance := connected p;
     handles := {| has_content := false;
                   has_leftActionPlaceholder := false;
                   has_leftActionPlaceholderContent := false;
                   has_rightActionPlaceholder := false;
                   has_rightActionPlaceholderContent := false |};
     listeners := [];
     binds := 0 |}.

(** The callback [connectedCallback] hands to [updateComplete.then]: it
    runs once [render] has produced the tree for the current properties. *)
Definition connectedCallback (c : Component) : result Component :=
  let p := props (instance c) in
  let tree := render p in
  if negb (querySelector (by_class "content") tree) then TypeError
  else
    let l1 := addEventListener "touchstart" (Bound m_onTouchStart (binds c))
                (listeners c) in
    let l2 := addEventListener "touchmove" (Bound m_onTouchMove (S (binds c))) l1 in
    let l3 := addEventListener "touchend" (Bound m_onTouchEnd (S (S (binds c)))) l2 in
    let h := handles c in
    Ok {| instance := instance c;
          handles :=
            {| has_content := true;
               has_leftActionPlaceholder :=
                 match leftAction p with
                 | Some _ => querySelector (by_class "left-action-placeholder") tree
                 | None => has_leftActionPlaceholder h
                 end;
               has_leftActionPlaceholderContent :=
                 match leftAction p with
                 | Some _ =>
                     querySelector
                       (descendant "left-action-placeholder" "placeholder-content")
                       tree
                 | None => has_leftActionPlaceholderContent h
                 end;
               has_rightActionPlaceholder :=
                 match rightAction p with
                 | Some _ => querySelector (by_class "right-action-placeholder") tree
                 | None => has_rightActionPlaceholder h
                 end;
               has_rightActionPlaceholderContent :=
                 match rightAction p with
                 | Some _ =>
                     querySelector
                       (descendant "right-action-placeholder" "placeholder-content")
                       tree
                 | None => has_rightActionPlaceholderContent h
                 end |};
          listeners := l3;
          binds := S (S (S (binds c))) |}.

(** [disconnectedCallback()]: a [TypeError] when [_content] is still
    undefined; otherwise three calls of [removeEventListener] with the
    methods themselves. *)
Definition disconnectedCallback (c : Component) : result Component :=
  if has_content (handles c)
  then
    Ok {| instance := instance c;
          handles := handles c;
          listeners :=
            removeEventListener "touchend" (Method m_onTouchEnd)
              (removeEventListener "touchmove" (Method m_onTouchMove)
                 (removeEventListener "touchstart" (Method m_onTouchStart)
                    (listeners c)));
          binds := binds c |}
  else TypeError.

(** What happens to the element: it is inserted into a document
    ([connectedCallback] runs and hands its callback to
    [updateComplete.then], where it waits), the update completes (the
    callback that has waited longest runs, if one waits), or the element is
    removed from its document ([disconnectedCallback] runs). *)
Inductive lifecycle : Type := Connect | Settle | Disconnect.

(** The element with [waiting] callbacks waiting for [updateComplete]
    lives through [ops], up to the first exception. *)
Fixpoint live (ops : list lifecycle) (waiting : nat) (c : Component)
  : result (Component * nat) :=
  match ops with
  | [] => Ok (c, waiting)
  | Connect :: rest => live rest (S waiting) c
  | Settle :: rest =>
      match waiting with
      | O => live rest O c
      | S n =>
          match connectedCallback c with
          | Ok c' => live rest n c'
          | TypeError => TypeError
          end
      end
  | Disconnect :: rest =>
      match disconnectedCallback c with
      | Ok c' => live rest waiting c'
      | TypeError => TypeError
      end
  end.

(** The number of callbacks that run during [ops]. *)
Fixpoint settled (ops : list lifecycle) (waiting : nat) : nat :=
  match ops with
  | [] => 0
  | Connect :: rest => settled rest (S waiting)
  | Settle :: rest =>
      match waiting with
      | O => settled rest O
      | S n => S (settled rest n)
      end
  | Disconnect :: rest => settled rest waiting
  end.

(** The element is removed before the first callback has run. *)
Fixpoint removed_early (ops : list lifecycle) (waiting : nat) : bool :=
  match ops with
  | [] => false
  | Connect :: rest => removed_early rest (S waiting)
  | Settle :: rest =>
      match waiting with
      | O => removed_early rest O
      | S _ => false
      end
  | Disconnect :: _ => true
  end.

(** The listeners [k] runs of [connectedCallback] register, in order. *)
Fixpoint registered (k : nat) : list listener :=
  match k with
  | O => []
  | S k' =>
      registered k'
      ++ [ {| on := "touchstart"; callback_of := Bound m_onTouchStart (3 * k') |};
           {| on := "touchmove"; callback_of := Bound m_onTouchMove (S (3 * k')) |};
           {| on := "touchend"; callback_of := Bound m_onTouchEnd (S (S (3 * k'))) |} ]
  end.

(** ** The transform applier and the element fields *)

(** What a method leaves: the instance when it returns, or the instance
    at the moment it throws a [TypeError]. *)
Inductive outcome : Type :=
| Returns (w : DwSwipeable)
| Throws (w : DwSwipeable).

Definition and_then (o : outcome) (k : DwSwipeable -> outcome) : outcome :=
  match o with
  | Returns w => k w
  | Throws w => Throws w
  end.

(** Lines 320 to 322 of [_transform]: the three number fields. *)
Definition set_offsets (tx sx ptsx : num) (w : DwSwipeable) : DwSwipeable :=
  {| props := props w;
     _touchStartPoints := _touchStartPoints w;
     _touchStartTime := _touchStartTime w;
     _translateX := Some tx;
     _scaleX := Some sx;
     _placeholderTextScaleX := Some ptsx;
     style := style w;
     dispatched := dispatched w;
     frameRequests := frameRequests w |}.

Definition set_style (st : Styles) (w : DwSwipeable) : DwSwipeable :=
  {| props := props w;
     _touchStartPoints := _touchStartPoints w;
     _touchStartTime := _touchStartTime w;
     _translateX := _translateX w;
     _scaleX := _scaleX w;
     _placeholderTextScaleX := _placeholderTextScaleX w;
     style := st;
     dispatched := dispatched w;
     frameRequests := frameRequests w |}.

Definition with_content (t : template) (st : Styles) : Styles :=
  {| _content := t;
     _leftActionPlaceholder := _leftActionPlaceholder st;
     _leftActionPlaceholderContent := _leftActionPlaceholderContent st;
     _rightActionPlaceholder := _rightActionPlaceholder st;
     _rightActionPlaceholderContent := _rightActionPlaceholderContent st |}.

Definition with_leftActionPlaceholder (t : template) (st : Styles) : Styles :=
  {| _content := _content st;
     _leftActionPlaceholder := t;
     _leftActionPlaceholderContent := _leftActionPlaceholderContent st;
     _rightActionPlaceholder := _rightActionPlaceholder st;
     _rightActionPlaceholderContent := _rightActionPlaceholderContent st |}.

Definition with_leftActionPlaceholderContent (t : template) (st : Styles) : Styles :=
  {| _content := _content st;
     _leftActionPlaceholder := _leftActionPlaceholder st;
     _leftActionPlaceholderContent := t;
     _rightActionPlaceholder := _rightActionPlaceholder st;
     _rightActionPlaceholderContent := _rightActionPlaceholderContent st |}.

Definition with_rightActionPlaceholder (t : template) (st : Styles) : Styles :=
  {| _content := _content st;
     _leftActionPlaceholder := _leftActionPlaceholder st;
     _leftActionPlaceholderContent := _leftActionPlaceholderContent st;
     _rightActionPlaceholder := t;
     _rightActionPlaceholderContent := _rightActionPlaceholderContent st |}.

Definition with_rightActionPlaceholderContent (t : template) (st : Styles) : Styles :=
  {| _content := _content st;
     _leftActionPlaceholder := _leftActionPlaceholder st;
     _leftActionPlaceholderContent := _leftActionPlaceholderContent st;
     _rightActionPlaceholder := _rightActionPlaceholder st;
     _rightActionPlaceholderContent := t |}.

(** [field.style.transform = ...]: a [TypeError] when the field holds no
    element. *)
Definition write_transform (present : bool) (f : Styles -> Styles) (w : DwSwipeable)
  : outcome :=
  if present then Returns (set_style (f (style w)) w) else Throws w.

(** [_transform] statement by statement, on an instance whose element
    fields are [h]. *)
Definition transform_with (h : Handles) (position : num) (w : DwSwipeable)
  : outcome :=
  let tx := clamp_translateX position (of_Z (offsetWidth (props w))) in
  let sx := scaleX_of tx in
  let ptsx := placeholderTextScaleX_of tx in
  and_then
    (write_transform (has_content h) (with_content (content_transform tx))
       (set_offsets tx sx ptsx w))
    (fun w1 =>
       and_then
         match leftAction (props w) with
         | Some _ =>
             and_then
               (write_transform (has_leftActionPlaceholder h)
                  (with_leftActionPlaceholder (placeholder_transform tx sx)) w1)
               (write_transform (has_leftActionPlaceholderContent h)
                  (with_leftActionPlaceholderContent
                     (placeholder_content_transform ptsx)))
         | None => Returns w1
         end
         (fun w2 =>
            match rightAction (props w) with
            | Some _ =>
                and_then
                  (write_transform (has_rightActionPlaceholder h)
                     (with_rightActionPlaceholder (placeholder_transform tx sx)) w2)
                  (write_transform (has_rightActionPlaceholderContent h)
                     (with_rightActionPlaceholderContent
                        (placeholder_content_transform ptsx)))
            | None => Returns w2
            end)).

(** The element fields hold an element for the content and for every
    side that has an action. *)
Definition handles_cover (h : Handles) (p : Props) : Prop :=
  has_content h = true /\
  (leftAction p <> None ->
   has_leftActionPlaceholder h = true /\
   has_leftActionPlaceholderContent h = true) /\
  (rightAction p <> None ->
   has_rightActionPlaceholder h = true /\
   has_rightActionPlaceholderContent h = true).

(** The host assigns [leftAction] and [rightAction]; the element renders
    again and keeps its element fields. *)
Definition set_actions (l r : option ActionSpec) (c : Component) : Component :=
  {| instance :=
       {| props :=
            {| leftAction := l;
               rightAction := r;
               threshold := threshold (props (instance c));
               velocity := velocity (props (instance c));
               animationTime := animationTime (props (instance c));
               offsetWidth := offsetWidth (props (instance c));
               offsetHeight := offsetHeight (props (instance c)) |};
          _touchStartPoints := _touchStartPoints (instance c);
          _touchStartTime := _touchStartTime (instance c);
          _translateX := _translateX (instance c);
          _scaleX := _scaleX (instance c);
          _placeholderTextScaleX := _placeholderTextScaleX (instance c);
          style := style (instance c);
          dispatched := dispatched (instance c);
          frameRequests := frameRequests (instance c) |};
     handles := handles c;
     listeners := listeners c;
     binds := binds c |}.

(** Every listener of the list is a bound function of rank below [n]. *)
Definition bound_below (n : nat) (l : list listener) : Prop :=
  Forall (fun x => exists m r, callback_of x = Bound m r /\ (r < n)%nat) l.

(** A listener runs its method on the instance; an exception it throws is
    reported and the next listener runs. *)
Definition run_method (m : method) (e : Touch) (now : Z) (w : DwSwipeable)
  : DwSwipeable :=
  match m with
  | m_onTouchStart => _onTouchStart e now w
  | m_onTouchMove =>
      match _onTouchMove e w with
      | Ok w' => w'
      | TypeError => w
      end
  | m_onTouchEnd =>
      match _onTouchEnd e now w with
      | Ok w' => w'
      | TypeError => w
      end
  end.

(** A touch event of type [type_] on the content element: the listeners
    for that type run in the order of their registration.  A bound
    function runs its method on the instance; the method itself would run
    on the content element and leave the instance alone. *)
Definition dispatch_touch (type_ : string) (e : Touch) (now : Z) (c : Component)
  : Component :=
  {| instance :=
       fold_left
         (fun w l =>
            if String.eqb (on l) type_
            then match callback_of l with
                 | Bound m _ => run_method m e now w
                 | Method _ => w
                 end
            else w)
         (listeners c) (instance c);
     handles := handles c;
     listeners := listeners c;
     binds := binds c |}.

(** ** Binary64 numbers *)

(** The two animation loops add a rounded step to a rounded offset frame
    after frame and compare the sum with the width or with 0, so what they
    do depends on the rounding of every operation.  [Binary64] embeds the
    transform applier, the dispatcher, the loops and the touch handlers
    over IEEE 754 binary64 numbers: every operation is rounded to nearest,
    ties to even, signed zeros are kept, and [Math.max] and [Math.min]
    follow ECMAScript ([NaN] when an argument is [NaN], [+0] above [-0]).
    A number handed in from outside is in canonical form. *)

Module Binary64.

Definition prec : Z := 53%Z.
Definition emax : Z := 1024%Z.

Definition num : Type := spec_float.

Definition NaN : num := S754_nan.
Definition zero : num := S754_zero false.

(** An integer as a number, rounded when it has more than 53 bits. *)
Definition of_Z (z : Z) : num := binary_normalize prec emax z 0 false.

Definition add : num -> num -> num := SFadd prec emax.
Definition sub : num -> num -> num := SFsub prec emax.
Definition mul : num -> num -> num := SFmul prec emax.
Definition div : num -> num -> num := SFdiv prec emax.

(** Unary minus. *)
Definition neg : num -> num := SFopp.

(** [Math.abs] *)
Definition abs : num -> num := SFabs.

Definition lt : num -> num -> bool := SFltb.
Definition le : num -> num -> bool := SFleb.
Definition gt (a b : num) : bool := SFltb b a.
Definition ge (a b : num) : bool := SFleb b a.

Definition is_negative_zero (a : num) : bool :=
  match a with
  | S754_zero true => true
  | _ => false
  end.

(** [Math.max] of two arguments. *)
Definition max (a b : num) : num :=
  match SFcompare a b with
  | Some Lt => b
  | Some Gt => a
  | Some Eq => if is_negative_zero a then b else a
  | None => NaN
  end.

(** [Math.min] of two arguments. *)
Definition min (a b : num) : num :=
  match SFcompare a b with
  | Some Lt => a
  | Some Gt => b
  | Some Eq => if is_negative_zero a then a else b
  | None => NaN
  end.

(** A field that may hold [undefined], read as a number. *)
Definition to_num (v : option num) : num :=
  match v with
  | Some n => n
  | None => NaN
  end.

(** The literals [0.06] and [0.3]: the binary64 numbers nearest to them. *)
Definition literal_0_06 : num := div (of_Z 6) (of_Z 100).
Definition literal_0_3 : num := div (of_Z 3) (of_Z 10).

(** [e.changedTouches[0]] of a touch event. *)
Record Touch : Type := {
  clientX : num;
  clientY : num
}.

(** The closures [step] handed to [window.requestAnimationFrame], with the
    variables they capture. *)
Inductive callback : Type :=
| swipe_step (d : direction) (pixelPerFrame : num)
| reset_step (d : direction) (pixelPerFrame : num).

Inductive piece : Type :=
| Lit (s : string)
| Val (n : num).

Definition template : Type := list piece.

Record Props : Type := {
  leftAction : option ActionSpec;
  rightAction : option ActionSpec;
  threshold : num;
  velocity : num;
  animationTime : num;
  offsetWidth : Z;
  offsetHeight : Z
}.

Record Styles : Type := {
  _content : template;
  _leftActionPlaceholder : template;
  _leftActionPlaceholderContent : template;
  _rightActionPlaceholder : template;
  _rightActionPlaceholderContent : template
}.

Record DwSwipeable : Type := {
  props : Props;
  _touchStartPoints : option (num * num);
  _touchStartTime : option num;
  _translateX : option num;
  _scaleX : option num;
  _placeholderTextScaleX : option num;
  style : Styles;
  dispatched : list CustomEvent;
  frameRequests : list callback
}.

Definition set_touchStart (p : num * num) (t : num) (w : DwSwipeable) : DwSwipeable :=
  {| props := props w;
     _touchStartPoints := Some p;
     _touchStartTime := Some t;
     _translateX := _translateX w;
     _scaleX := _scaleX w;
     _placeholderTextScaleX := _placeholderTextScaleX w;
     style := style w;
     dispatched := dispatched w;
     frameRequests := frameRequests w |}.

Definition set_translateX (v : option num) (w : DwSwipeable) : DwSwipeable :=
  {| props := props w;
     _touchStartPoints := _touchStartPoints w;
     _touchStartTime := _touchStartTime w;
     _translateX := v;
     _scaleX := _scaleX w;
     _placeholderTextScaleX := _placeholderTextScaleX w;
     style := style w;
     dispatched := dispatched w;
     frameRequests := frameRequests w |}.

Definition set_transform (tx sx ptsx : num) (st : Styles) (w : DwSwipeable) : DwSwipeable :=
  {| props := props w;
     _touchStartPoints := _touchStartPoints w;
     _touchStartTime := _touchStartTime w;
     _translateX := Some tx;
     _scaleX := Some sx;
     _placeholderTextScaleX := Some ptsx;
     style := st;
     dispatched := dispatched w;
     frameRequests := frameRequests w |}.

(** [this.dispatchEvent(ev)]. *)
Definition dispatchEvent (ev : CustomEvent) (w : DwSwipeable) : DwSwipeable :=
  {| props := props w;
     _touchStartPoints := _touchStartPoints w;
     _touchStartTime := _touchStartTime w;
     _translateX := _translateX w;
     _scaleX := _scaleX w;
     _placeholderTextScaleX := _placeholderTextScaleX w;
     style := style w;
     dispatched := dispatched w ++ [ev];
     frameRequests := frameRequests w |}.

Definition set_frameRequests (l : list callback) (w : DwSwipeable) : DwSwipeable :=
  {| props := props w;
     _touchStartPoints := _touchStartPoints w;
     _touchStartTime := _touchStartTime w;
     _translateX := _translateX w;
     _scaleX := _scaleX w;
     _placeholderTextScaleX := _placeholderTextScaleX w;
     style := style w;
     dispatched := dispatched w;
     frameRequests := l |}.

(** [window.requestAnimationFrame(cb)]: run [cb] at the next frame. *)
Definition requestAnimationFrame (cb : callback) (w : DwSwipeable) : DwSwipeable :=
  set_frameRequests (frameRequests w ++ [cb]) w.

(** [`translateX(${tx}px)`] *)
Definition content_transform (tx : num) : template :=
  [Lit "translateX("; Val tx; Lit "px)"].

(** [`translateX(${tx}px) scaleX(${sx}`] *)
Definition placeholder_transform (tx sx : num) : template :=
  [Lit "translateX("; Val tx; Lit "px) scaleX("; Val sx].

(** [`scaleX(${ptsx})`] *)
Definition placeholder_content_transform (ptsx : num) : template :=
  [Lit "scaleX("; Val ptsx; Lit ")"].

Definition clamp_translateX (position width : num) : num :=
  if lt position zero then max position (neg width) else min position width.

Definition scaleX_of (tx : num) : num := max (of_Z 1) (abs (div tx (of_Z 100))).

Definition placeholderTextScaleX_of (tx : num) : num :=
  min (of_Z 1) (div (of_Z 100) (abs tx)).

Definition _transform (position : num) (w : DwSwipeable) : DwSwipeable :=
  let tx := clamp_translateX position (of_Z (offsetWidth (props w))) in
  let sx := scaleX_of tx in
  let ptsx := placeholderTextScaleX_of tx in
  let st := style w in
  let st' :=
    {| _content := content_transform tx;
       _leftActionPlaceholder :=
         match leftAction (props w) with
         | Some _ => placeholder_transform tx sx
         | None => _leftActionPlaceholder st
         end;
       _leftActionPlaceholderContent :=
         match leftAction (props w) with
         | Some _ => placeholder_content_transform ptsx
         | None => _leftActionPlaceholderContent st
         end;
       _rightActionPlaceholder :=
         match rightAction (props w) with
         | Some _ => placeholder_transform tx sx
         | None => _rightActionPlaceholder st
         end;
       _rightActionPlaceholderContent :=
         match rightAction (props w) with
         | Some _ => placeholder_content_transform ptsx
         | None => _rightActionPlaceholderContent st
         end |} in
  set_transform tx sx ptsx st' w.

(** The local [actionName] of [_dispatchAction]. *)
Definition actionName (action : direction) (p : Props) : option string :=
  match action, leftAction p, rightAction p with
  | LEFT, Some a, _ => name a
  | RIGHT, _, Some a => name a
  | _, _, _ => None
  end.

Definition _dispatchAction (action : direction) (w : DwSwipeable) : DwSwipeable :=
  match actionName action (props w) with
  | Some n =>
      if negb (truthy (Some n))
      then w
      else dispatchEvent {| type := "action"; detail_name := n |} w
  | None => w
  end.

(** The local [transformX] of [step] in [_swipe]. *)
Definition swipe_transformX (d : direction) (pixelPerFrame width tx : num) : num :=
  match d with
  | LEFT => max (sub tx pixelPerFrame) (neg width)
  | RIGHT => min (add tx pixelPerFrame) width
  end.

(** The body of [step] in [_swipe]. *)
Definition swipe_frame (d : direction) (pixelPerFrame : num) (w : DwSwipeable)
  : DwSwipeable :=
  let tx := to_num (_translateX w) in
  let width := of_Z (offsetWidth (props w)) in
  if ge (abs tx) width
  then set_translateX None (_dispatchAction d w)
  else
    let transformX := swipe_transformX d pixelPerFrame width tx in
    requestAnimationFrame (swipe_step d pixelPerFrame) (_transform transformX w).

(** The test of [step] in [_reset]. *)
Definition reset_arrived (d : direction) (tx : num) : bool :=
  match d with
  | LEFT => ge tx zero
  | RIGHT => le tx zero
  end.

(** The local [transformX] of [step] in [_reset]. *)
Definition reset_transformX (d : direction) (pixelPerFrame tx : num) : num :=
  match d with
  | LEFT => min (add tx pixelPerFrame) zero
  | RIGHT => max (sub tx pixelPerFrame) zero
  end.

(** The body of [step] in [_reset]. *)
Definition reset_frame (d : direction) (pixelPerFrame : num) (w : DwSwipeable)
  : DwSwipeable :=
  let tx := to_num (_translateX w) in
  if reset_arrived d tx
  then set_translateX None w
  else
    let transformX := reset_transformX d pixelPerFrame tx in
    requestAnimationFrame (reset_step d pixelPerFrame) (_transform transformX w).

Definition run_callback (cb : callback) (w : DwSwipeable) : DwSwipeable :=
  match cb with
  | swipe_step d ppf => swipe_frame d ppf w
  | reset_step d ppf => reset_frame d ppf w
  end.

(** One display refresh: the callbacks requested so far run in order; what
    they request waits for the next refresh. *)
Definition animation_frame (w : DwSwipeable) : DwSwipeable :=
  fold_left (fun acc cb => run_callback cb acc) (frameRequests w)
            (set_frameRequests [] w).

(** [n] display refreshes with no touch event in between. *)
Fixpoint run_frames (n : nat) (w : DwSwipeable) : DwSwipeable :=
  match n with
  | O => w
  | S k => run_frames k (animation_frame w)
  end.

Definition direction_of (tx : num) : direction :=
  if lt tx zero then LEFT else RIGHT.

(** The local [pixelPerFrame] of [_swipe]. *)
Definition swipe_pixelPerFrame (w : DwSwipeable) : num :=
  let tx := to_num (_translateX w) in
  let width := of_Z (offsetWidth (props w)) in
  let diff := if lt tx zero then sub (neg width) tx else sub width tx in
  abs (div diff (mul (animationTime (props w)) literal_0_06)).

Definition _swipe (w : DwSwipeable) : DwSwipeable :=
  let direction := direction_of (to_num (_translateX w)) in
  requestAnimationFrame (swipe_step direction (swipe_pixelPerFrame w)) w.

(** The local [pixelPerFrame] of [_reset]. *)
Definition reset_pixelPerFrame (w : DwSwipeable) : num :=
  abs (div (to_num (_translateX w)) (mul (animationTime (props w)) literal_0_06)).

Definition _reset (w : DwSwipeable) : DwSwipeable :=
  let direction := direction_of (to_num (_translateX w)) in
  requestAnimationFrame (reset_step direction (reset_pixelPerFrame w)) w.

(** [now] is the value of [new Date().getTime()]. *)
Definition _onTouchStart (e : Touch) (now : Z) (w : DwSwipeable) : DwSwipeable :=
  set_touchStart (clientX e, clientY e) (of_Z now) w.

Definition _onTouchMove (e : Touch) (w : DwSwipeable) : result DwSwipeable :=
  match _touchStartPoints w with
  | None => TypeError
  | Some (startX, startY) =>
      let diffX := sub (clientX e) startX in
      let diffY := sub (clientY e) startY in
      if is_undefined (_translateX w)
         && (lt (div (abs diffX) (abs diffY)) (of_Z 1)
             || gt (abs diffY) (of_Z (offsetHeight (props w)))
             || le (abs diffX) (threshold (props w)))
      then Ok w
      else Ok (_transform diffX w)
  end.

Definition _onTouchEnd (e : Touch) (now : Z) (w : DwSwipeable) : result DwSwipeable :=
  if is_undefined (_translateX w) then Ok w
  else
    match _touchStartPoints w with
    | None => TypeError
    | Some (startX, _) =>
        let diffX := sub (clientX e) startX in
        let timeDiff := sub (of_Z now) (to_num (_touchStartTime w)) in
        let velocity_ := div (abs diffX) timeDiff in
        if gt velocity_ (velocity (props w))
           || gt (abs diffX) (div (of_Z (offsetWidth (props w))) (of_Z 2))
        then Ok (_swipe w)
        else Ok (_reset w)
    end.

(** A touch event at integer coordinates. *)
Definition touch_at (x y : Z) : Touch := {| clientX := of_Z x; clientY := of_Z y |}.

(** The events of a page delivered in order: touch events and display
    refreshes.  An exception thrown by a handler is reported to the console
    and the page goes on. *)
Inductive event : Type :=
| touchstart (e : Touch) (now : Z)
| touchmove (e : Touch)
| touchend (e : Touch) (now : Z)
| frame.

Definition deliver (ev : event) (w : DwSwipeable) : DwSwipeable :=
  match ev with
  | touchstart e now => _onTouchStart e now w
  | touchmove e =>
      match _onTouchMove e w with
      | Ok w' => w'
      | TypeError => w
      end
  | touchend e now =>
      match _onTouchEnd e now w with
      | Ok w' => w'
      | TypeError => w
      end
  | frame => animation_frame w
  end.

Definition deliver_all (evs : list event) (w : DwSwipeable) : DwSwipeable :=
  fold_left (fun acc ev => deliver ev acc) evs w.

(** A widget as the demo page mounts it. *)
Definition demo_props : Props :=
  {| leftAction := Some demo_action;
     rightAction := Some demo_action;
     threshold := of_Z 10;
     velocity := literal_0_3;
     animationTime := of_Z 200;
     offsetWidth := 300;
     offsetHeight := 60 |}.

Definition no_style : Styles :=
  {| _content := [];
     _leftActionPlaceholder := [];
     _leftActionPlaceholderContent := [];
     _rightActionPlaceholder := [];
     _rightActionPlaceholderContent := [] |}.

Definition connected (p : Props) : DwSwipeable :=
  {| props := p;
     _touchStartPoints := None;
     _touchStartTime := None;
     _translateX := None;
     _scaleX := None;
     _placeholderTextScaleX := None;
     style := no_style;
     dispatched := [];
     frameRequests := [] |}.










(** The demo widget touched at the origin at time 1000 and dragged
    horizontally to [x]. *)
Definition tracking (x : num) : DwSwipeable :=
  deliver_all [touchstart (touch_at 0 0) 1000;
               touchmove (touch_at (-20) 0);
               touchmove {| clientX := x; clientY := zero |}]
              (connected demo_props).

(** The same widget swiped fast to -156, then touched again and dragged to
    -156 before the next display refresh: the commit of the first gesture
    is waiting for its first frame. *)
Definition committing_touched_again : DwSwipeable :=
  deliver_all [touchstart (touch_at 0 0) 1000;
               touchmove (touch_at (-156) 0);
               touchend (touch_at (-156) 0) 1050;
               touchstart (touch_at 0 0) 1055;
               touchmove (touch_at (-156) 0)]
              (connected demo_props).

(** The same widget dragged slowly to -24 and released, then touched again
    before the next display refresh: the reset of the first gesture is
    waiting for its first frame. *)
Definition resetting_touched_again : DwSwipeable :=
  deliver_all [touchstart (touch_at 0 0) 1000;
               touchmove (touch_at (-24) 0);
               touchend (touch_at (-24) 0) 1500;
               touchstart (touch_at 40 5) 1505]
              (connected demo_props).

(** The largest number below 300 and the largest below 0 (-5e-324). *)
Definition just_below_300 : num := S754_finite false 5277655813324799 (-44).
Definition just_below_zero : num := S754_finite true 1 (-1074).

#[global] Arguments of_Z : simpl never.
#[global] Arguments add : simpl never.
#[global] Arguments sub : simpl never.
#[global] Arguments mul : simpl never.
#[global] Arguments div : simpl never.
#[global] Arguments literal_0_06 : simpl never.

End Binary64.

(** ** Comparisons and clamps on finite numbers *)

Lemma Qlt_bool_iff (a b : Q) : Qlt_bool a b = true <-> a < b.
Proof.
  unfold Qlt_bool. rewrite negb_true_iff. split; intro H.
  - apply Qnot_le_lt. intro Hle. apply Qle_bool_iff in Hle. congruence.
  - destruct (Qle_bool b a) eqn:E; [|reflexivity].
    apply Qle_bool_iff in E. exfalso. exact (Qlt_not_le _ _ H E).
Qed.

Lemma Qle_bool_false (a b : Q) : Qle_bool a b = false <-> b < a.
Proof.
  rewrite <- Qlt_bool_iff. unfold Qlt_bool.
  destruct (Qle_bool a b); simpl; split; congruence.
Qed.

Lemma Qeq_bool_false (a b : Q) : Qeq_bool a b = false <-> ~ a == b.
Proof.
  split; intro H.
  - intro E. apply Qeq_bool_iff in E. congruence.
  - destruct (Qeq_bool a b) eqn:E; [|reflexivity].
    apply Qeq_bool_iff in E. contradiction.
Qed.

(** Case analysis on every comparison of rationals in sight. *)
Ltac qbool :=
  unfold Qlt_bool in *;
  repeat match goal with
  | |- context [Qle_bool ?a ?b] =>
      let H := fresh "Hc" in
      destruct (Qle_bool a b) eqn:H;
      [apply Qle_bool_iff in H | apply Qle_bool_false in H]
  | |- context [Qeq_bool ?a ?b] =>
      let H := fresh "Hc" in
      destruct (Qeq_bool a b) eqn:H;
      [apply Qeq_bool_iff in H | apply Qeq_bool_false in H]
  | |- context [Qcompare ?a ?b] =>
      let H := fresh "Hc" in
      destruct (Qcompare_spec a b) as [H|H|H]
  end.

(** Unfold the operations on numbers, and nothing of the rationals. *)
Ltac js :=
  cbn [div abs max min le lt gt ge add sub neg mul of_Z to_num sign
       signed_inf sign_mul is_nan] in *.

(** The non-finite cases the widget can meet. *)
Example div_by_zero :
  div (Fin 100) (Fin 0) = PInf /\ div (Fin 0) (Fin 0) = NaN /\
  div (Fin (-3)) (Fin 0) = NInf /\ div (Fin 5) PInf = Fin 0.
Proof. repeat split. Qed.

Example compare_non_finite :
  lt NaN (Fin 1) = false /\ le (Fin 0) NaN = false /\
  lt PInf (Fin 1) = false /\ gt PInf (Fin (3 # 10)) = true /\
  min (Fin 1) PInf = Fin 1 /\ max (sub (Fin 7) PInf) (Fin 0) = Fin 0 /\
  is_nan (max NaN (Fin 0)) = true /\ is_nan (mul PInf (Fin 0)) = true.
Proof. repeat split. Qed.

Lemma lt_Fin (a b : Q) : lt (Fin a) (Fin b) = true <-> a < b.
Proof. simpl. apply Qlt_bool_iff. Qed.

Lemma le_Fin (a b : Q) : le (Fin a) (Fin b) = true <-> a <= b.
Proof. simpl. apply Qle_bool_iff. Qed.

Lemma lt_Fin_false (a b : Q) : lt (Fin a) (Fin b) = false <-> b <= a.
Proof.
  simpl. unfold Qlt_bool. rewrite negb_false_iff. apply Qle_bool_iff.
Qed.

Lemma le_Fin_false (a b : Q) : le (Fin a) (Fin b) = false <-> b < a.
Proof. simpl. apply Qle_bool_false. Qed.

Lemma Qabs_cases (x : Q) :
  (0 <= x /\ Qabs x == x) \/ (x < 0 /\ Qabs x == - x).
Proof.
  destruct (Qlt_le_dec x 0) as [H|H].
  - right. split; [exact H|]. apply Qabs_neg. lra.
  - left. split; [exact H|]. apply Qabs_pos. exact H.
Qed.

(** The stored offset after a clamp to a non-negative width. *)
Lemma clamp_translateX_range (position : num) (W : Q) :
  is_nan position = false -> 0 <= W ->
  exists tx, clamp_translateX position (Fin W) = Fin tx /\ - W <= tx <= W.
Proof.
  intros Hnan HW. destruct position as [q| | |]; try discriminate;
    unfold clamp_translateX; js.
  - qbool; eexists; (split; [reflexivity|]); lra.
  - qbool; eexists; (split; [reflexivity|]); lra.
  - exists (- W). split; [reflexivity|]. lra.
Qed.

(** A finite offset already in range is stored as it is. *)
Lemma clamp_translateX_id (x W : Q) :
  - W <= x <= W ->
  exists tx, clamp_translateX (Fin x) (Fin W) = Fin tx /\ tx == x.
Proof.
  intros H. unfold clamp_translateX; js.
  qbool; eexists; (split; [reflexivity|]); lra.
Qed.

Lemma scaleX_of_Fin (tx : Q) :
  exists sx, scaleX_of (Fin tx) = Fin sx /\ 1 <= sx.
Proof.
  unfold scaleX_of. js.
  assert (E : Qeq_bool 100 0 = false) by reflexivity.
  rewrite E. js. qbool.
  - eexists. split; [reflexivity|]. exact Hc.
  - eexists. split; [reflexivity|]. lra.
Qed.

Lemma placeholderTextScaleX_of_Fin (tx : Q) :
  exists ptsx, placeholderTextScaleX_of (Fin tx) = Fin ptsx /\ 0 <= ptsx <= 1
               /\ (tx == 0 -> ptsx = 1).
Proof.
  unfold placeholderTextScaleX_of. js.
  destruct (Qeq_bool (Qabs tx) 0) eqn:E.
  - apply Qeq_bool_iff in E.
    assert (Hpos : (100 ?= 0) = Gt) by reflexivity.
    rewrite Hpos. js. exists 1. repeat split; lra.
  - apply Qeq_bool_false in E.
    assert (Hne : ~ tx == 0).
    { intro H0. apply E. rewrite H0. reflexivity. }
    assert (Hab : 0 < Qabs tx).
    { pose proof (Qabs_nonneg tx). lra. }
    assert (Hq : 0 < 100 / Qabs tx).
    { apply Qlt_shift_div_l; lra. }
    js. qbool.
    + exists 1. repeat split; try lra.
    + eexists. split; [reflexivity|]. split; [lra|]. intro. contradiction.
Qed.

(** ** The transform applier *)

Lemma transform_translateX (position : num) (w : DwSwipeable) :
  _translateX (_transform position w)
  = Some (clamp_translateX position (of_Z (offsetWidth (props w)))).
Proof. reflexivity. Qed.

Lemma transform_props (position : num) (w : DwSwipeable) :
  props (_transform position w) = props w.
Proof. reflexivity. Qed.

Lemma transform_dispatched (position : num) (w : DwSwipeable) :
  dispatched (_transform position w) = dispatched w.
Proof. reflexivity. Qed.

Lemma transform_frameRequests (position : num) (w : DwSwipeable) :
  frameRequests (_transform position w) = frameRequests w.
Proof. reflexivity. Qed.

(** C3.  After [_transform] with any offset that is a number (finite or
    infinite), on a widget whose width is not negative, the stored
    [_translateX] lies between minus the width and the width, [_scaleX] is
    at least 1 and [_placeholderTextScaleX] lies between 0 and 1, all three
    finite; for the offset 0 the division [100 / 0] gives [+Infinity] and
    [_placeholderTextScaleX] is exactly 1. *)
Theorem transform_bounds (position : num) (w : DwSwipeable) :
  is_nan position = false ->
  (0 <= offsetWidth (props w))%Z ->
  let W := inject_Z (offsetWidth (props w)) in
  let w' := _transform position w in
  (exists tx sx ptsx : Q,
      _translateX w' = Some (Fin tx) /\
      _scaleX w' = Some (Fin sx) /\
      _placeholderTextScaleX w' = Some (Fin ptsx) /\
      - W <= tx <= W /\ 1 <= sx /\ 0 <= ptsx <= 1) /\
  (eqv position (Fin 0) -> _placeholderTextScaleX w' = Some (Fin 1)).
Proof.
  intros Hnan Hw W w'.
  assert (HW : 0 <= W).
  { unfold W. change 0 with (inject_Z 0). rewrite <- Zle_Qle. exact Hw. }
  destruct (clamp_translateX_range position W Hnan HW) as (tx & Etx & Htx).
  destruct (scaleX_of_Fin tx) as (sx & Esx & Hsx).
  destruct (placeholderTextScaleX_of_Fin tx) as (ptsx & Ep & Hp & Hp0).
  assert (Etx' : clamp_translateX position (of_Z (offsetWidth (props w))) = Fin tx)
    by exact Etx.
  split.
  - exists tx, sx, ptsx. unfold w', _transform. cbn [_translateX _scaleX
      _placeholderTextScaleX set_transform].
    rewrite Etx', Esx, Ep. repeat split; try reflexivity; lra.
  - intros H0. destruct position as [q| | |]; try contradiction.
    cbn [eqv] in H0.
    unfold w', _transform. cbn [_placeholderTextScaleX set_transform].
    rewrite Etx', Ep. f_equal. f_equal. apply Hp0.
    revert Etx. unfold clamp_translateX. js. qbool; intros [= <-]; lra.
Qed.

Lemma transform_bounds_witness :
  exists tx sx ptsx : Q,
    _translateX (_transform (Fin (-450)) (connected demo_props)) = Some (Fin tx) /\
    _scaleX (_transform (Fin (-450)) (connected demo_props)) = Some (Fin sx) /\
    _placeholderTextScaleX (_transform (Fin (-450)) (connected demo_props))
    = Some (Fin ptsx) /\
    - inject_Z 300 <= tx <= inject_Z 300 /\ 1 <= sx /\ 0 <= ptsx <= 1.
Proof.
  refine (proj1 (transform_bounds (Fin (-450)) (connected demo_props) _ _)).
  - reflexivity.
  - simpl. lia.
Defined.

(** ** The action dispatcher *)

(** The action configured for a direction. *)
Lemma actionName_configured (d : direction) (p : Props) :
  actionName d p
  = match (match d with LEFT => leftAction p | RIGHT => rightAction p end) with
    | Some a => name a
    | None => None
    end.
Proof.
  unfold actionName. destruct d; destruct (leftAction p); reflexivity.
Qed.

Lemma dispatchAction_emits (d : direction) (w : DwSwipeable) (a : ActionSpec)
      (n : string) :
  match d with LEFT => leftAction (props w) | RIGHT => rightAction (props w) end
  = Some a ->
  name a = Some n -> n <> EmptyString ->
  _dispatchAction d w = dispatchEvent {| type := "action"; detail_name := n |} w.
Proof.
  intros Ha Hn Hne. unfold _dispatchAction.
  rewrite actionName_configured, Ha, Hn. cbn [truthy].
  apply String.eqb_neq in Hne. rewrite Hne. reflexivity.
Qed.

Lemma dispatchAction_silent (d : direction) (w : DwSwipeable) :
  match (match d with LEFT => leftAction (props w) | RIGHT => rightAction (props w) end) with
  | Some a => name a = None \/ name a = Some EmptyString
  | None => True
  end ->
  _dispatchAction d w = w.
Proof.
  intros H. unfold _dispatchAction. rewrite actionName_configured.
  destruct (match d with LEFT => _ | RIGHT => _ end) as [a|]; [|reflexivity].
  destruct H as [H|H]; rewrite H; reflexivity.
Qed.

(** C6.  [_dispatchAction] takes the name from [leftAction] for [LEFT] and
    from [rightAction] for [RIGHT].  With that action absent, or its name
    undefined or empty, the call changes nothing and emits nothing;
    otherwise it emits one [action] event whose detail carries the name,
    after the events emitted before, and changes nothing else. *)
Theorem dispatchAction_spec (d : direction) (w : DwSwipeable) :
  let configured :=
    match d with
    | LEFT => leftAction (props w)
    | RIGHT => rightAction (props w)
    end in
  (configured = None -> _dispatchAction d w = w) /\
  (forall a, configured = Some a ->
             name a = None \/ name a = Some EmptyString ->
             _dispatchAction d w = w) /\
  (forall a n, configured = Some a -> name a = Some n -> n <> EmptyString ->
               _dispatchAction d w
               = dispatchEvent {| type := "action"; detail_name := n |} w /\
               dispatched (_dispatchAction d w)
               = dispatched w ++ [{| type := "action"; detail_name := n |}]).
Proof.
  intros configured. split; [|split].
  - intros Hnone. apply dispatchAction_silent. fold configured.
    rewrite Hnone. exact I.
  - intros a Ha Hn. apply dispatchAction_silent. fold configured.
    rewrite Ha. exact Hn.
  - intros a n Ha Hn Hne.
    rewrite (dispatchAction_emits d w a n Ha Hn Hne). split; reflexivity.
Qed.

Lemma dispatchAction_spec_witness :
  dispatched (_dispatchAction LEFT (connected demo_props))
  = [{| type := "action"; detail_name := "DELETE" |}].
Proof.
  destruct (dispatchAction_spec LEFT (connected demo_props)) as (_ & _ & H).
  destruct (H demo_action "DELETE"%string eq_refl eq_refl) as [_ E].
  - discriminate.
  - exact E.
Defined.

(** ** Touch end with no transform in progress *)

(** C9.  [_onTouchEnd] on an instance whose [_translateX] is undefined
    returns at once: the instance is unchanged, so no frame is requested,
    no event dispatched and no style written, also when no touch start
    was recorded. *)
Theorem onTouchEnd_noop (e : Touch) (now : Z) (w : DwSwipeable) :
  _translateX w = None ->
  _onTouchEnd e now w = Ok w.
Proof.
  intros H. unfold _onTouchEnd. rewrite H. reflexivity.
Qed.

Lemma onTouchEnd_noop_witness :
  _onTouchEnd {| clientX := 40; clientY := 3 |} 1000 (connected demo_props)
  = Ok (connected demo_props).
Proof.
  apply (onTouchEnd_noop _ _ (connected demo_props)). reflexivity.
Defined.

(** ** Touch move: when a transform begins *)

(** The first test of [_onTouchMove]: [|dx| / |dy| < 1] is false exactly
    when the motion is at least as horizontal as vertical; with [dy = 0] the
    quotient is [+Infinity] or [NaN] and the test is false. *)
Lemma horizontal_test (dx dy : Q) :
  lt (div (abs (Fin dx)) (abs (Fin dy))) (Fin 1) = false
  <-> (dy == 0 \/ 1 <= Qabs dx / Qabs dy).
Proof.
  js. pose proof (Qabs_nonneg dx) as Hx.
  destruct (Qeq_bool (Qabs dy) 0) eqn:E.
  - apply Qeq_bool_iff in E.
    assert (Hdy : dy == 0).
    { destruct (Qabs_cases dy) as [[_ H]|[_ H]]; lra. }
    destruct (Qcompare_spec (Qabs dx) 0) as [H|H|H]; js.
    + tauto.
    + lra.
    + tauto.
  - apply Qeq_bool_false in E.
    assert (Hdy : ~ dy == 0).
    { intro H. apply E. rewrite H. reflexivity. }
    rewrite lt_Fin_false. tauto.
Qed.

Lemma onTouchMove_begin (e : Touch) (w : DwSwipeable) (sx sy T : Q) :
  _translateX w = None ->
  _touchStartPoints w = Some (Fin sx, Fin sy) ->
  threshold (props w) = Fin T ->
  begins_transform (clientX e - sx) (clientY e - sy) (offsetHeight (props w)) T ->
  _onTouchMove e w = Ok (_transform (Fin (clientX e - sx)) w).
Proof.
  intros Htx Hsp HT (Hh & Hv & Hd).
  unfold _onTouchMove. rewrite Hsp, Htx, HT. cbn [is_undefined andb].
  apply horizontal_test in Hh.
  change (sub (Fin (clientX e)) (Fin sx)) with (Fin (clientX e - sx)).
  change (sub (Fin (clientY e)) (Fin sy)) with (Fin (clientY e - sy)).
  rewrite Hh. cbn [orb].
  assert (Hv' : gt (abs (Fin (clientY e - sy))) (of_Z (offsetHeight (props w))) = false).
  { unfold gt. js. apply lt_Fin_false. exact Hv. }
  assert (Hd' : le (abs (Fin (clientX e - sx))) (Fin T) = false).
  { js. apply le_Fin_false. exact Hd. }
  rewrite Hv', Hd'. reflexivity.
Qed.





(** ** Touch end: commit or reset *)








(** ** The direction of the animation *)

Lemma direction_of_Fin (q : Q) :
  (direction_of (Fin q) = LEFT <-> q < 0) /\
  (direction_of (Fin q) = RIGHT <-> 0 <= q).
Proof.
  unfold direction_of.
  destruct (lt (Fin q) (Fin 0)) eqn:E.
  - apply lt_Fin in E. repeat split; intros; try assumption; try reflexivity;
      try discriminate. lra.
  - apply lt_Fin_false in E. repeat split; intros; try assumption;
      try reflexivity; try discriminate. lra.
Qed.

(** C10.  On a touch end with the stored offset [q], whatever the event's
    coordinates and time, the handler requests one animation step whose
    captured direction is [LEFT] if and only if [q] is strictly negative and
    [RIGHT] otherwise, zero included; that captured direction is the one the
    step moves toward and hands to [_dispatchAction].  The event decides
    only between the step of [_swipe] and the step of [_reset]. *)
Theorem onTouchEnd_direction (e : Touch) (now : Z) (w : DwSwipeable)
        (q : Q) (sx sy : num) :
  _translateX w = Some (Fin q) ->
  _touchStartPoints w = Some (sx, sy) ->
  exists cb, _onTouchEnd e now w = Ok (requestAnimationFrame cb w) /\
    callback_direction cb = direction_of (Fin q) /\
    (callback_direction cb = LEFT <-> q < 0) /\
    (callback_direction cb = RIGHT <-> 0 <= q) /\
    (cb = swipe_step (direction_of (Fin q)) (swipe_pixelPerFrame w) \/
     cb = reset_step (direction_of (Fin q)) (reset_pixelPerFrame w)).
Proof.
  intros Htx Hsp. unfold _onTouchEnd. rewrite Htx, Hsp. cbn [is_undefined].
  destruct (direction_of_Fin q) as [HL HR].
  destruct (_ || _).
  - exists (swipe_step (direction_of (Fin q)) (swipe_pixelPerFrame w)).
    unfold _swipe. rewrite Htx. cbn [to_num callback_direction].
    repeat split; try apply HL; try apply HR. left. reflexivity.
  - exists (reset_step (direction_of (Fin q)) (reset_pixelPerFrame w)).
    unfold _reset. rewrite Htx. cbn [to_num callback_direction].
    repeat split; try apply HL; try apply HR. right. reflexivity.
Qed.

Lemma onTouchEnd_direction_witness :
  exists cb, _onTouchEnd {| clientX := -200; clientY := 0 |} 1900 tracking_at_zero
             = Ok (requestAnimationFrame cb tracking_at_zero) /\
             callback_direction cb = RIGHT.
Proof.
  destruct (onTouchEnd_direction {| clientX := -200; clientY := 0 |} 1900
              tracking_at_zero 0 (Fin 0) (Fin 0) eq_refl eq_refl)
    as (cb & E & Hd & _).
  exists cb. split; [exact E|]. rewrite Hd. reflexivity.
Defined.

(** ** A side with no action *)

(** C7, as stated, fails: with no [rightAction], a drag of 50 pixels to the
    right begins a transform and stores the offset 50. *)
Lemma swipe_toward_unconfigured_side_begins :
  ~ swipe_toward_unconfigured_side_disabled.
Proof.
  intros H.
  specialize (H (_onTouchStart {| clientX := 0; clientY := 0 |} 0
                   (connected left_only_props))
                (_transform (Fin (50 - 0))
                   (_onTouchStart {| clientX := 0; clientY := 0 |} 0
                      (connected left_only_props)))
                {| clientX := 50; clientY := 0 |} 0 0
                eq_refl eq_refl).
  assert (Hside : (rightAction (props (_onTouchStart {| clientX := 0; clientY := 0 |} 0
                                          (connected left_only_props))) = None
                   /\ 0 < clientX {| clientX := 50; clientY := 0 |}) \/
                  (leftAction (props (_onTouchStart {| clientX := 0; clientY := 0 |} 0
                                         (connected left_only_props))) = None
                   /\ clientX {| clientX := 50; clientY := 0 |} < 0)).
  { left. split; reflexivity. }
  specialize (H Hside eq_refl). vm_compute in H. discriminate.
Qed.

(** C7, amended.  On a widget with no action on a side, a touch move toward
    that side that meets the three conditions begins the transform like any
    other; what the absence of the action removes is the side's
    placeholder, whose styles [_transform] never writes, and the side's
    event: [_dispatchAction] for that direction changes nothing. *)
Theorem absent_action_side (w : DwSwipeable) :
  (rightAction (props w) = None ->
   (forall position,
       _rightActionPlaceholder (style (_transform position w))
       = _rightActionPlaceholder (style w) /\
       _rightActionPlaceholderContent (style (_transform position w))
       = _rightActionPlaceholderContent (style w)) /\
   _dispatchAction RIGHT w = w /\
   (forall e sx sy T,
       _translateX w = None ->
       _touchStartPoints w = Some (Fin sx, Fin sy) ->
       threshold (props w) = Fin T ->
       sx < clientX e ->
       begins_transform (clientX e - sx) (clientY e - sy) (offsetHeight (props w)) T ->
       _onTouchMove e w = Ok (_transform (Fin (clientX e - sx)) w))) /\
  (leftAction (props w) = None ->
   (forall position,
       _leftActionPlaceholder (style (_transform position w))
       = _leftActionPlaceholder (style w) /\
       _leftActionPlaceholderContent (style (_transform position w))
       = _leftActionPlaceholderContent (style w)) /\
   _dispatchAction LEFT w = w /\
   (forall e sx sy T,
       _translateX w = None ->
       _touchStartPoints w = Some (Fin sx, Fin sy) ->
       threshold (props w) = Fin T ->
       clientX e < sx ->
       begins_transform (clientX e - sx) (clientY e - sy) (offsetHeight (props w)) T ->
       _onTouchMove e w = Ok (_transform (Fin (clientX e - sx)) w))).
Proof.
  split; intros Hnone; (split; [|split]).
  - intros position. unfold _transform. cbn [style set_transform
      _rightActionPlaceholder _rightActionPlaceholderContent].
    rewrite Hnone. split; reflexivity.
  - unfold _dispatchAction, actionName. rewrite Hnone.
    destruct (leftAction (props w)); reflexivity.
  - intros e sx sy T Htx Hsp HT _ Hb. apply (onTouchMove_begin e w sx sy T); assumption.
  - intros position. unfold _transform. cbn [style set_transform
      _leftActionPlaceholder _leftActionPlaceholderContent].
    rewrite Hnone. split; reflexivity.
  - unfold _dispatchAction, actionName. rewrite Hnone. reflexivity.
  - intros e sx sy T Htx Hsp HT _ Hb. apply (onTouchMove_begin e w sx sy T); assumption.
Qed.

Lemma absent_action_side_witness :
  _dispatchAction RIGHT (connected left_only_props) = connected left_only_props.
Proof.
  destruct (absent_action_side (connected left_only_props)) as [Hr _].
  destruct (Hr eq_refl) as (_ & Hd & _). exact Hd.
Defined.

(** ** The transform strings *)

(** C8.  [_transform] writes a complete [translateX(..px)] to the content
    and a complete [scaleX(..)] to the caption block of each placeholder
    that exists, but the transform of each placeholder that exists is
    [translateX(..px) scaleX(..] with the last parenthesis left open. *)
Theorem placeholder_transform_unclosed (position : num) (w : DwSwipeable) :
  let w' := _transform position w in
  let tx := to_num (_translateX w') in
  let sx := to_num (_scaleX w') in
  let ptsx := to_num (_placeholderTextScaleX w') in
  _content (style w') = [Lit "translateX("; Val tx; Lit "px)"] /\
  complete (_content (style w')) = true /\
  (leftAction (props w) <> None ->
   _leftActionPlaceholder (style w')
   = [Lit "translateX("; Val tx; Lit "px) scaleX("; Val sx] /\
   complete (_leftActionPlaceholder (style w')) = false /\
   _leftActionPlaceholderContent (style w') = [Lit "scaleX("; Val ptsx; Lit ")"] /\
   complete (_leftActionPlaceholderContent (style w')) = true) /\
  (rightAction (props w) <> None ->
   _rightActionPlaceholder (style w')
   = [Lit "translateX("; Val tx; Lit "px) scaleX("; Val sx] /\
   complete (_rightActionPlaceholder (style w')) = false /\
   _rightActionPlaceholderContent (style w') = [Lit "scaleX("; Val ptsx; Lit ")"] /\
   complete (_rightActionPlaceholderContent (style w')) = true).
Proof.
  cbv zeta. unfold _transform.
  cbn [style set_transform _translateX _scaleX _placeholderTextScaleX to_num
       _content _leftActionPlaceholder _leftActionPlaceholderContent
       _rightActionPlaceholder _rightActionPlaceholderContent].
  split; [reflexivity|]. split; [reflexivity|]. split.
  - intros Hl. destruct (leftAction (props w)); [|congruence].
    repeat split; reflexivity.
  - intros Hr. destruct (rightAction (props w)); [|congruence].
    repeat split; reflexivity.
Qed.

Lemma placeholder_transform_unclosed_witness :
  _leftActionPlaceholder (style (_transform (Fin (-150)) (connected demo_props)))
  = [Lit "translateX("; Val (Fin (-150)); Lit "px) scaleX("; Val (Fin (150 # 100))] /\
  complete (_leftActionPlaceholder
              (style (_transform (Fin (-150)) (connected demo_props)))) = false.
Proof.
  destruct (placeholder_transform_unclosed (Fin (-150)) (connected demo_props))
    as (_ & _ & Hl & _).
  destruct Hl as (E & Hc & _); [discriminate|].
  split; [|exact Hc]. rewrite E. vm_compute. reflexivity.
Defined.

(** ** Animation loops in general *)

Lemma animation_frame_idle (s : DwSwipeable) :
  frameRequests s = [] -> animation_frame s = s.
Proof.
  intros H. unfold animation_frame. rewrite H. destruct s. cbn in *.
  subst. reflexivity.
Qed.

Lemma animation_frame_single (s : DwSwipeable) (cb : callback) :
  frameRequests s = [cb] ->
  animation_frame s = run_callback cb (set_frameRequests [] s).
Proof.
  intros H. unfold animation_frame. rewrite H. reflexivity.
Qed.

Lemma run_frames_idle (n : nat) (s : DwSwipeable) :
  frameRequests s = [] -> run_frames n s = s.
Proof.
  intros H. induction n as [|n IH]; [reflexivity|].
  cbn [run_frames]. rewrite (animation_frame_idle s H). exact IH.
Qed.

(** ** What the dispatcher leaves alone *)

Lemma dispatchAction_props (d : direction) (s : DwSwipeable) :
  props (_dispatchAction d s) = props s.
Proof.
  unfold _dispatchAction. destruct (actionName d (props s)); [|reflexivity].
  destruct (negb _); reflexivity.
Qed.

Lemma dispatchAction_frameRequests (d : direction) (s : DwSwipeable) :
  frameRequests (_dispatchAction d s) = frameRequests s.
Proof.
  unfold _dispatchAction. destruct (actionName d (props s)); [|reflexivity].
  destruct (negb _); reflexivity.
Qed.

Lemma dispatchAction_style (d : direction) (s : DwSwipeable) :
  style (_dispatchAction d s) = style s.
Proof.
  unfold _dispatchAction. destruct (actionName d (props s)); [|reflexivity].
  destruct (negb _); reflexivity.
Qed.

(** The events after [_dispatchAction] depend on the action properties and
    on the events before, and on nothing else of the instance. *)
Lemma dispatchAction_dispatched (d : direction) (s w0 : DwSwipeable) :
  props s = props w0 -> dispatched s = dispatched w0 ->
  dispatched (_dispatchAction d s) = dispatched (_dispatchAction d w0).
Proof.
  intros Hp Hd. unfold _dispatchAction. rewrite Hp.
  destruct (actionName d (props w0)); [|exact Hd].
  destruct (negb _); [exact Hd|]. cbn [dispatched dispatchEvent].
  rewrite Hd. reflexivity.
Qed.

(** ** The reset animation *)

Lemma reset_arrived_iff (d : direction) (x : Q) :
  reset_arrived d (Fin x) = true <-> reset_stops d x.
Proof.
  unfold reset_arrived, reset_stops, ge. destruct d; apply le_Fin.
Qed.

(** ** More on the transform applier *)

Lemma transform_overwrites (p q : num) (w : DwSwipeable) :
  _transform q (_transform p w) = _transform q w.
Proof.
  unfold _transform.
  cbn [props style set_transform _translateX _scaleX _placeholderTextScaleX
       _touchStartPoints _touchStartTime dispatched frameRequests
       _content _leftActionPlaceholder _leftActionPlaceholderContent
       _rightActionPlaceholder _rightActionPlaceholderContent].
  destruct (leftAction (props w)); destruct (rightAction (props w));
    reflexivity.
Qed.

(** X1.  The last call of [_transform] wins: what an earlier call stored
    and wrote is overwritten in full, so that applying an offset twice is
    the same as applying it once. *)
Theorem transform_last_wins (p q : num) (w : DwSwipeable) :
  _transform q (_transform p w) = _transform q w /\
  _transform q (_transform q w) = _transform q w.
Proof.
  split; apply transform_overwrites.
Qed.

(** The value of [Math.max(1, |tx / 100|)] and of
    [Math.min(1, 100 / |tx|)]: their range, and their value up to 100
    pixels. *)
Lemma scaleX_of_value (tx : Q) :
  exists sx, scaleX_of (Fin tx) = Fin sx /\
             1 <= sx /\
             (Qabs tx <= 100 -> sx == 1).
Proof.
  unfold scaleX_of. js.
  assert (E : Qeq_bool 100 0 = false) by reflexivity.
  rewrite E. js.
  assert (Ha : Qabs (tx / 100) == Qabs tx / 100).
  { unfold Qdiv. rewrite Qabs_Qmult. reflexivity. }
  qbool; eexists; (split; [reflexivity|]); rewrite Ha in *;
    unfold Qdiv in *; change (/ 100) with (1 # 100) in *;
    (split; [|intros H]); lra.
Qed.

Lemma placeholderTextScaleX_of_value (tx : Q) :
  exists ptsx, placeholderTextScaleX_of (Fin tx) = Fin ptsx /\
               0 <= ptsx /\ ptsx <= 1 /\
               (Qabs tx <= 100 -> ptsx == 1).
Proof.
  unfold placeholderTextScaleX_of. js.
  pose proof (Qabs_nonneg tx) as Hn.
  destruct (Qeq_bool (Qabs tx) 0) eqn:E.
  - apply Qeq_bool_iff in E.
    assert (Hpos : (100 ?= 0) = Gt) by reflexivity.
    rewrite Hpos. js. exists 1. split; [reflexivity|].
    split; [lra|]. split; [lra|]. intros H. lra.
  - apply Qeq_bool_false in E. js.
    assert (Hab : 0 < Qabs tx) by lra.
    assert (H0 : 0 <= 100 / Qabs tx) by (apply Qle_shift_div_l; lra).
    qbool; eexists; (split; [reflexivity|]);
      (split; [|split; [|intros H]]); try lra.
    assert (H1 : 1 <= 100 / Qabs tx) by (apply Qle_shift_div_l; lra).
    lra.
Qed.

(** X2.  The placeholder is never shrunk and its caption never stretched:
    for every offset [_transform] stores a [_scaleX] of at least 1 and a
    [_placeholderTextScaleX] between 0 and 1, and up to 100 pixels of
    offset both are 1. *)
Theorem transform_scales_within_100 (position : num) (w : DwSwipeable) :
  is_nan position = false ->
  (0 <= offsetWidth (props w))%Z ->
  let w' := _transform position w in
  exists tx sx ptsx : Q,
    _translateX w' = Some (Fin tx) /\
    _scaleX w' = Some (Fin sx) /\
    _placeholderTextScaleX w' = Some (Fin ptsx) /\
    1 <= sx /\ 0 <= ptsx /\ ptsx <= 1 /\
    (Qabs tx <= 100 -> sx == 1 /\ ptsx == 1).
Proof.
  intros Hnan Hw w'.
  assert (HW : 0 <= inject_Z (offsetWidth (props w))).
  { change 0 with (inject_Z 0). rewrite <- Zle_Qle. exact Hw. }
  destruct (clamp_translateX_range position _ Hnan HW) as (tx & Etx & _).
  destruct (scaleX_of_value tx) as (sx & Esx & Hs0 & Hs1).
  destruct (placeholderTextScaleX_of_value tx) as (pt & Ept & Hp0 & Hp1 & Hp2).
  assert (Etx' : clamp_translateX position (of_Z (offsetWidth (props w))) = Fin tx)
    by exact Etx.
  exists tx, sx, pt. unfold w', _transform.
  cbn [_translateX _scaleX _placeholderTextScaleX set_transform].
  rewrite Etx', Esx, Ept.
  split; [reflexivity|]. split; [reflexivity|]. split; [reflexivity|].
  split; [exact Hs0|]. split; [exact Hp0|]. split; [exact Hp1|].
  intros H. split; [apply Hs1|apply Hp2]; exact H.
Qed.

Lemma transform_scales_within_100_witness :
  exists tx sx ptsx : Q,
    _translateX (_transform (Fin (-60)) (connected demo_props)) = Some (Fin tx) /\
    _scaleX (_transform (Fin (-60)) (connected demo_props)) = Some (Fin sx) /\
    _placeholderTextScaleX (_transform (Fin (-60)) (connected demo_props))
    = Some (Fin ptsx) /\
    1 <= sx /\ 0 <= ptsx /\ ptsx <= 1.
Proof.
  destruct (transform_scales_within_100 (Fin (-60)) (connected demo_props))
    as (tx & sx & pt & H1 & H2 & H3 & H4 & H5 & H6 & _).
  - reflexivity.
  - simpl. lia.
  - exists tx, sx, pt. repeat split; assumption.
Defined.

(** X3.  What [_transform] stores: an offset within the width as it is, an
    offset beyond the width (also an infinite one) as the width with the
    offset's sign. *)
Theorem transform_saturates (position : num) (w : DwSwipeable) :
  (0 <= offsetWidth (props w))%Z ->
  let W := inject_Z (offsetWidth (props w)) in
  match position with
  | Fin q =>
      exists tx, _translateX (_transform position w) = Some (Fin tx) /\
                 (Qabs q <= W -> tx == q) /\
                 (W <= q -> tx == W) /\
                 (q <= - W -> tx == - W)
  | PInf => _translateX (_transform position w) = Some (Fin W)
  | NInf => _translateX (_transform position w) = Some (Fin (- W))
  | NaN => _translateX (_transform position w) = Some NaN
  end.
Proof.
  intros Hw W.
  assert (HW : 0 <= W).
  { unfold W. change 0 with (inject_Z 0). rewrite <- Zle_Qle. exact Hw. }
  rewrite transform_translateX. change (of_Z (offsetWidth (props w))) with (Fin W).
  destruct position as [q| | |]; try reflexivity.
  unfold clamp_translateX. js.
  qbool; eexists; (split; [reflexivity|]);
    (split; [intros H; apply Qabs_Qle_condition in H|split; intros H]); lra.
Qed.

Lemma transform_saturates_witness :
  exists tx, _translateX (_transform (Fin 420) (connected demo_props)) = Some (Fin tx) /\
             tx == 300.
Proof.
  assert (Hw : (0 <= offsetWidth (props (connected demo_props)))%Z)
    by (simpl; lia).
  destruct (transform_saturates (Fin 420) (connected demo_props) Hw)
    as (tx & E & _ & H & _).
  exists tx. split; [exact E|]. apply H. vm_compute. discriminate.
Defined.

(** ** Whole gestures *)











(** ** An infinite animation time *)

Lemma pixelPerFrame_infinite (diff : Q) (a : num) :
  a = PInf \/ a = NInf ->
  abs (div (Fin diff) (mul a (Fin 0.06))) = Fin 0.
Proof.
  intros [-> | ->]; reflexivity.
Qed.

(** A step of size 0 leaves an offset short of the width where it is. *)
Lemma swipe_frame_stationary (d : direction) (s : DwSwipeable) (t x : Q) :
  frameRequests s = [swipe_step d (Fin 0)] ->
  _translateX s = Some (Fin x) ->
  x == t ->
  d = direction_of (Fin t) ->
  Qabs t < inject_Z (offsetWidth (props s)) ->
  exists x', x' == t /\
    frameRequests (animation_frame s) = [swipe_step d (Fin 0)] /\
    _translateX (animation_frame s) = Some (Fin x') /\
    props (animation_frame s) = props s /\
    dispatched (animation_frame s) = dispatched s.
Proof.
  intros Hf Hx Ext Hd Hlt.
  set (W := inject_Z (offsetWidth (props s))) in *.
  rewrite (animation_frame_single s _ Hf). cbn [run_callback].
  unfold swipe_frame. cbn [_translateX set_frameRequests props].
  rewrite Hx. unfold ge. js. fold W.
  assert (Hn : Qle_bool W (Qabs x) = false).
  { apply Qle_bool_false. rewrite Ext. exact Hlt. }
  rewrite Hn.
  apply Qabs_Qlt_condition in Hlt.
  destruct (direction_of_Fin t) as [HL HR]. rewrite <- Hd in HL, HR.
  assert (Hy : exists y, swipe_transformX d (Fin 0) (Fin W) (Fin x) = Fin y /\ y == t).
  { unfold swipe_transformX. destruct d; js; qbool; eexists;
      (split; [reflexivity|]); lra. }
  destruct Hy as (y & Ey & Hyt).
  destruct (clamp_translateX_id y W) as (x' & Ex' & Hx'); [lra|].
  exists x'. split; [lra|].
  unfold requestAnimationFrame, _transform.
  cbn [props dispatched frameRequests _translateX set_frameRequests
       set_transform app].
  change (of_Z (offsetWidth (props s))) with (Fin W).
  change (Fin (inject_Z (offsetWidth (props s)))) with (Fin W).
  rewrite Ey, Ex'. repeat split.
Qed.

Lemma reset_frame_stationary (d : direction) (s : DwSwipeable) (t x : Q) :
  frameRequests s = [reset_step d (Fin 0)] ->
  _translateX s = Some (Fin x) ->
  x == t ->
  d = direction_of (Fin t) ->
  ~ t == 0 ->
  Qabs t <= inject_Z (offsetWidth (props s)) ->
  exists x', x' == t /\
    frameRequests (animation_frame s) = [reset_step d (Fin 0)] /\
    _translateX (animation_frame s) = Some (Fin x') /\
    props (animation_frame s) = props s /\
    dispatched (animation_frame s) = dispatched s.
Proof.
  intros Hf Hx Ext Hd Hnz Hle.
  set (W := inject_Z (offsetWidth (props s))) in *.
  rewrite (animation_frame_single s _ Hf). cbn [run_callback].
  unfold reset_frame. cbn [_translateX set_frameRequests props].
  rewrite Hx. cbn [to_num].
  apply Qabs_Qle_condition in Hle.
  destruct (direction_of_Fin t) as [HL HR]. rewrite <- Hd in HL, HR.
  assert (Hn : reset_arrived d (Fin x) = false).
  { destruct (reset_arrived d (Fin x)) eqn:B; [|reflexivity].
    apply reset_arrived_iff in B. unfold reset_stops in B. destruct d.
    - assert (t < 0) by (apply HL; reflexivity). lra.
    - assert (0 <= t) by (apply HR; reflexivity). lra. }
  rewrite Hn.
  assert (Hy : exists y, reset_transformX d (Fin 0) (Fin x) = Fin y /\ y == t).
  { unfold reset_transformX. destruct d; js; qbool; eexists;
      (split; [reflexivity|]); try lra.
    - assert (t < 0) by (apply HL; reflexivity). lra.
    - assert (0 <= t) by (apply HR; reflexivity). lra. }
  destruct Hy as (y & Ey & Hyt).
  destruct (clamp_translateX_id y W) as (x' & Ex' & Hx'); [lra|].
  exists x'. split; [lra|].
  unfold requestAnimationFrame, _transform.
  cbn [props dispatched frameRequests _translateX set_frameRequests
       set_transform app].
  change (of_Z (offsetWidth (props s))) with (Fin W).
  rewrite Ey, Ex'. repeat split.
Qed.

(** X9.  With an infinite [animationTime] the step size of both
    animations is 0 and neither ever ends: a commit from an offset short
    of the width, and a reset from an offset other than 0, keep that
    offset and keep requesting frames for ever, and dispatch nothing. *)
Theorem infinite_animationTime_never_ends (w : DwSwipeable) (t : Q) :
  _translateX w = Some (Fin t) ->
  frameRequests w = [] ->
  animationTime (props w) = PInf \/ animationTime (props w) = NInf ->
  (Qabs t < inject_Z (offsetWidth (props w)) ->
   forall k, exists x, x == t /\
     _translateX (run_frames k (_swipe w)) = Some (Fin x) /\
     phase_of (run_frames k (_swipe w)) = COMMITTING /\
     dispatched (run_frames k (_swipe w)) = dispatched w) /\
  (~ t == 0 -> Qabs t <= inject_Z (offsetWidth (props w)) ->
   forall k, exists x, x == t /\
     _translateX (run_frames k (_reset w)) = Some (Fin x) /\
     phase_of (run_frames k (_reset w)) = RESETTING /\
     dispatched (run_frames k (_reset w)) = dispatched w).
Proof.
  intros Hx Hf Ha. split.
  - intros Hlt.
    assert (Hs : _swipe w
                 = requestAnimationFrame
                     (swipe_step (direction_of (Fin t)) (Fin 0)) w).
    { unfold _swipe, swipe_pixelPerFrame. rewrite Hx. cbn [to_num].
      f_equal. f_equal.
      destruct (lt (Fin t) (Fin 0)); apply pixelPerFrame_infinite; exact Ha. }
    rewrite Hs.
    assert (Hgen : forall k s x,
               frameRequests s = [swipe_step (direction_of (Fin t)) (Fin 0)] ->
               _translateX s = Some (Fin x) -> x == t ->
               props s = props w ->
               exists x', x' == t /\
                 _translateX (run_frames k s) = Some (Fin x') /\
                 phase_of (run_frames k s) = COMMITTING /\
                 dispatched (run_frames k s) = dispatched s).
    { induction k as [|k IH]; intros s x Hfs Hxs Ext Hps.
      - exists x. cbn [run_frames]. unfold phase_of. rewrite Hfs.
        repeat split; assumption.
      - assert (Hlt' : Qabs t < inject_Z (offsetWidth (props s)))
          by (rewrite Hps; exact Hlt).
        destruct (swipe_frame_stationary _ s t x Hfs Hxs Ext eq_refl Hlt')
          as (x' & Ext' & Hf' & Hx' & Hp' & Hd').
        destruct (IH (animation_frame s) x' Hf' Hx' Ext')
          as (x'' & E1 & E2 & E3 & E4); [congruence|].
        exists x''. cbn [run_frames]. repeat split; try assumption. congruence. }
    intros k.
    assert (Hf0 : frameRequests
                    (requestAnimationFrame
                       (swipe_step (direction_of (Fin t)) (Fin 0)) w)
                  = [swipe_step (direction_of (Fin t)) (Fin 0)]).
    { unfold requestAnimationFrame. cbn [frameRequests set_frameRequests].
      rewrite Hf. reflexivity. }
    destruct (Hgen k _ t Hf0 Hx (Qeq_refl t) eq_refl) as (x & E1 & E2 & E3 & E4).
    exists x. repeat split; assumption.
  - intros Hnz Hle.
    assert (Hs : _reset w
                 = requestAnimationFrame
                     (reset_step (direction_of (Fin t)) (Fin 0)) w).
    { unfold _reset, reset_pixelPerFrame. rewrite Hx. cbn [to_num].
      f_equal. f_equal. apply pixelPerFrame_infinite. exact Ha. }
    rewrite Hs.
    assert (Hgen : forall k s x,
               frameRequests s = [reset_step (direction_of (Fin t)) (Fin 0)] ->
               _translateX s = Some (Fin x) -> x == t ->
               props s = props w ->
               exists x', x' == t /\
                 _translateX (run_frames k s) = Some (Fin x') /\
                 phase_of (run_frames k s) = RESETTING /\
                 dispatched (run_frames k s) = dispatched s).
    { induction k as [|k IH]; intros s x Hfs Hxs Ext Hps.
      - exists x. cbn [run_frames]. unfold phase_of. rewrite Hfs.
        repeat split; assumption.
      - assert (Hle' : Qabs t <= inject_Z (offsetWidth (props s)))
          by (rewrite Hps; exact Hle).
        destruct (reset_frame_stationary _ s t x Hfs Hxs Ext eq_refl Hnz Hle')
          as (x' & Ext' & Hf' & Hx' & Hp' & Hd').
        destruct (IH (animation_frame s) x' Hf' Hx' Ext')
          as (x'' & E1 & E2 & E3 & E4); [congruence|].
        exists x''. cbn [run_frames]. repeat split; try assumption. congruence. }
    intros k.
    assert (Hf0 : frameRequests
                    (requestAnimationFrame
                       (reset_step (direction_of (Fin t)) (Fin 0)) w)
                  = [reset_step (direction_of (Fin t)) (Fin 0)]).
    { unfold requestAnimationFrame. cbn [frameRequests set_frameRequests].
      rewrite Hf. reflexivity. }
    destruct (Hgen k _ t Hf0 Hx (Qeq_refl t) eq_refl) as (x & E1 & E2 & E3 & E4).
    exists x. repeat split; assumption.
Qed.

Lemma infinite_animationTime_never_ends_witness :
  exists x, x == -150 /\
    _translateX (run_frames 40 (_swipe (endless_tracking (-150)))) = Some (Fin x) /\
    dispatched (run_frames 40 (_swipe (endless_tracking (-150)))) = [].
Proof.
  assert (Hlt : Qabs (-150)
                < inject_Z (offsetWidth (props (endless_tracking (-150))))).
  { vm_compute. reflexivity. }
  destruct (infinite_animationTime_never_ends (endless_tracking (-150)) (-150)
              eq_refl eq_refl (or_introl eq_refl)) as [Hcommit _].
  destruct (Hcommit Hlt 40%nat) as (x & E1 & E2 & _ & E4).
  exists x. repeat split; assumption.
Defined.

(** ** Rendering and the element fields *)

(** The selectors of [connectedCallback] against the tree of [render]: [.content] is always found; the placeholder of a side and
    its [.placeholder-content] block are found exactly when that side has
    an action, whatever the action's name, caption and icon. *)
Lemma render_queries (p : Props) :
  querySelector (by_class "content") (render p) = true /\
  querySelector (by_class "left-action-placeholder") (render p)
  = is_some (leftAction p) /\
  querySelector (descendant "left-action-placeholder" "placeholder-content")
    (render p)
  = is_some (leftAction p) /\
  querySelector (by_class "right-action-placeholder") (render p)
  = is_some (rightAction p) /\
  querySelector (descendant "right-action-placeholder" "placeholder-content")
    (render p)
  = is_some (rightAction p).
Proof.
  unfold render, render_placeholder.
  destruct (leftAction p) as [l|]; destruct (rightAction p) as [r|];
    try destruct (truthy (icon l)); try destruct (truthy (icon r));
    repeat split; reflexivity.
Qed.

(** X10.  The selectors of [connectedCallback] against the tree of
    [render]: [.content] is always found; the placeholder of a side and
    its [.placeholder-content] block are found exactly when that side has
    an action, whatever the action's name, caption and icon. *)
Theorem render_lookups (p : Props) :
  querySelector (by_class "content") (render p) = true /\
  querySelector (by_class "left-action-placeholder") (render p)
  = is_some (leftAction p) /\
  querySelector (descendant "left-action-placeholder" "placeholder-content")
    (render p)
  = is_some (leftAction p) /\
  querySelector (by_class "right-action-placeholder") (render p)
  = is_some (rightAction p) /\
  querySelector (descendant "right-action-placeholder" "placeholder-content")
    (render p)
  = is_some (rightAction p).
Proof.
  apply render_queries.
Qed.

Lemma connectedCallback_ok (c : Component) :
  exists c', connectedCallback c = Ok c' /\
             instance c' = instance c /\
             handles_cover (handles c') (props (instance c)) /\
             binds c' = S (S (S (binds c))).
Proof.
  destruct (render_queries (props (instance c))) as (Hc & Hl & Hlc & Hr & Hrc).
  unfold connectedCallback. rewrite Hc. cbn [negb].
  eexists. split; [reflexivity|]. cbn [instance handles binds].
  split; [reflexivity|]. split; [|reflexivity].
  unfold handles_cover. cbn [has_content has_leftActionPlaceholder
    has_leftActionPlaceholderContent has_rightActionPlaceholder
    has_rightActionPlaceholderContent].
  rewrite Hl, Hlc, Hr, Hrc.
  split; [reflexivity|]. split; intros H.
  - destruct (leftAction (props (instance c))); [split; reflexivity|congruence].
  - destruct (rightAction (props (instance c))); [split; reflexivity|congruence].
Qed.

Lemma transform_with_cover (h : Handles) (position : num) (w : DwSwipeable) :
  handles_cover h (props w) ->
  transform_with h position w = Returns (_transform position w).
Proof.
  intros (Hc & Hl & Hr). unfold transform_with, _transform, write_transform.
  rewrite Hc. cbn [and_then set_offsets set_style props style].
  destruct (leftAction (props w)) as [l|].
  - destruct Hl as [Hl1 Hl2]; [discriminate|]. rewrite Hl1. cbn [and_then].
    rewrite Hl2. cbn [and_then set_style props style].
    destruct (rightAction (props w)) as [r|].
    + destruct Hr as [Hr1 Hr2]; [discriminate|]. rewrite Hr1. cbn [and_then].
      rewrite Hr2. reflexivity.
    + reflexivity.
  - cbn [and_then].
    destruct (rightAction (props w)) as [r|].
    + destruct Hr as [Hr1 Hr2]; [discriminate|]. rewrite Hr1. cbn [and_then].
      rewrite Hr2. reflexivity.
    + reflexivity.
Qed.

(** X11.  [connectedCallback] never throws and finds every element
    [_transform] writes to: afterwards, also after the host has removed
    an action, [_transform] returns normally for every offset, having
    stored the offsets and written the styles exactly as the applier of
    the claims does. *)
Theorem connectedCallback_covers (c : Component) (position : num) :
  exists c', connectedCallback c = Ok c' /\
    instance c' = instance c /\
    transform_with (handles c') position (instance c')
    = Returns (_transform position (instance c')) /\
    (forall l r,
        (l = None \/ l = leftAction (props (instance c))) ->
        (r = None \/ r = rightAction (props (instance c))) ->
        transform_with (handles (set_actions l r c')) position
          (instance (set_actions l r c'))
        = Returns (_transform position (instance (set_actions l r c')))).
Proof.
  destruct (connectedCallback_ok c) as (c' & E & Hi & Hcov & _).
  exists c'. split; [exact E|]. split; [exact Hi|]. split.
  - apply transform_with_cover. rewrite Hi. exact Hcov.
  - intros l r Hl Hr. apply transform_with_cover.
    destruct Hcov as (H1 & H2 & H3).
    unfold handles_cover. cbn [set_actions handles instance props leftAction
      rightAction]. split; [exact H1|]. split; intros Hn.
    + apply H2. destruct Hl as [->| ->]; [congruence|exact Hn].
    + apply H3. destruct Hr as [->| ->]; [congruence|exact Hn].
Qed.

(** X12.  An action configured after [connectedCallback] ran without it:
    the element field of its placeholder was never assigned, and
    [_transform] throws a [TypeError] for every offset, after it has
    stored the three numbers and moved the content and before it writes
    any placeholder of that side.  For a late [leftAction] no placeholder
    at all is written. *)
Theorem late_action_throws (c : Component) (a : ActionSpec) (position : num) :
  handles c = handles (created (props (instance c))) ->
  (leftAction (props (instance c)) = None ->
   exists c', connectedCallback c = Ok c' /\
     let w := instance (set_actions (Some a) (rightAction (props (instance c))) c') in
     exists w', transform_with (handles c') position w = Throws w' /\
       _translateX w' = _translateX (_transform position w) /\
       _scaleX w' = _scaleX (_transform position w) /\
       _placeholderTextScaleX w' = _placeholderTextScaleX (_transform position w) /\
       _content (style w') = _content (style (_transform position w)) /\
       _leftActionPlaceholder (style w') = _leftActionPlaceholder (style w) /\
       _leftActionPlaceholderContent (style w')
       = _leftActionPlaceholderContent (style w) /\
       _rightActionPlaceholder (style w') = _rightActionPlaceholder (style w) /\
       _rightActionPlaceholderContent (style w')
       = _rightActionPlaceholderContent (style w)) /\
  (rightAction (props (instance c)) = None ->
   exists c', connectedCallback c = Ok c' /\
     let w := instance (set_actions (leftAction (props (instance c))) (Some a) c') in
     exists w', transform_with (handles c') position w = Throws w' /\
       _translateX w' = _translateX (_transform position w) /\
       _content (style w') = _content (style (_transform position w)) /\
       _leftActionPlaceholder (style w')
       = _leftActionPlaceholder (style (_transform position w)) /\
       _rightActionPlaceholder (style w') = _rightActionPlaceholder (style w) /\
       _rightActionPlaceholderContent (style w')
       = _rightActionPlaceholderContent (style w)).
Proof.
  intros Hh.
  destruct (render_queries (props (instance c))) as (Hc & Hl & Hlc & Hr & Hrc).
  split; intros Hnone.
  - unfold connectedCallback. rewrite Hc, Hh, Hnone. cbn [negb].
    eexists. split; [reflexivity|]. cbv zeta.
    cbn [set_actions instance handles created has_content
         has_leftActionPlaceholder has_leftActionPlaceholderContent].
    unfold transform_with, write_transform.
    cbn [props leftAction rightAction has_content has_leftActionPlaceholder
         and_then set_offsets set_style style].
    eexists. split; [reflexivity|]. repeat split.
  - unfold connectedCallback. rewrite Hc, Hh, Hnone. cbn [negb].
    eexists. split; [reflexivity|]. cbv zeta.
    cbn [set_actions instance handles created has_content
         has_rightActionPlaceholder has_rightActionPlaceholderContent
         has_leftActionPlaceholder has_leftActionPlaceholderContent].
    unfold transform_with, write_transform.
    cbn [props leftAction rightAction has_content has_rightActionPlaceholder
         and_then set_offsets set_style style].
    rewrite Hl, Hlc.
    destruct (leftAction (props (instance c))) as [l|];
      cbn [is_some is_undefined negb and_then set_style style props];
      eexists; (split; [reflexivity|]); unfold _transform;
      cbn [props leftAction rightAction style set_transform _translateX
           _content _leftActionPlaceholder _rightActionPlaceholder
           _rightActionPlaceholderContent with_content
           with_leftActionPlaceholder with_leftActionPlaceholderContent];
      repeat split.
Qed.

Lemma late_action_throws_witness :
  exists w',
    transform_with
      {| has_content := true;
         has_leftActionPlaceholder := true;
         has_leftActionPlaceholderContent := true;
         has_rightActionPlaceholder := false;
         has_rightActionPlaceholderContent := false |}
      (Fin 50) (connected demo_props) = Throws w' /\
    _rightActionPlaceholder (style w') = [].
Proof.
  destruct (late_action_throws (created left_only_props) demo_action (Fin 50) eq_refl)
    as [_ H].
  destruct (H eq_refl) as (c' & E & w' & E1 & _ & _ & _ & E5 & _).
  injection E as <-. exists w'. split; [exact E1|exact E5].
Defined.

(** ** Listeners over the life of the element *)

Lemma bound_below_weaken (n n' : nat) (l : list listener) :
  (n <= n')%nat -> bound_below n l -> bound_below n' l.
Proof.
  intros Hn H. unfold bound_below in *.
  eapply Forall_impl; [|exact H].
  intros x (m & r & E & Hr). exists m, r. split; [exact E|lia].
Qed.

Lemma registered_bound_below (k : nat) : bound_below (3 * k) (registered k).
Proof.
  induction k as [|k IH]; [constructor|].
  cbn [registered]. apply Forall_app. split.
  - apply (bound_below_weaken (3 * k)); [lia|exact IH].
  - repeat constructor; eexists; eexists; (split; [reflexivity|lia]).
Qed.

(** A bound function just created is in no listener list yet. *)
Lemma addEventListener_fresh (type_ : string) (m : method) (n : nat)
      (l : list listener) :
  bound_below n l ->
  addEventListener type_ (Bound m n) l
  = l ++ [{| on := type_; callback_of := Bound m n |}].
Proof.
  intros H. unfold addEventListener.
  assert (E : existsb (listener_eqb {| on := type_; callback_of := Bound m n |}) l
              = false).
  { induction H as [|x l (m' & r & Ex & Hr) _ IH]; [reflexivity|].
    cbn [existsb]. rewrite IH. unfold listener_eqb. cbn [callback_of on].
    rewrite Ex. cbn [func_eqb].
    assert (En : Nat.eqb n r = false) by (apply Nat.eqb_neq; lia).
    rewrite En, andb_false_r, andb_false_r. reflexivity. }
  rewrite E. reflexivity.
Qed.

(** Removing a method that was never registered removes nothing. *)
Lemma removeEventListener_method (type_ : string) (m : method) (n : nat)
      (l : list listener) :
  bound_below n l -> removeEventListener type_ (Method m) l = l.
Proof.
  intros H. induction H as [|x l (m' & r & Ex & Hr) _ IH]; [reflexivity|].
  cbn [removeEventListener]. unfold listener_eqb. cbn [callback_of on].
  rewrite Ex. cbn [func_eqb]. rewrite andb_false_r. rewrite IH. reflexivity.
Qed.

Lemma connect_step (c : Component) (k : nat) :
  listeners c = registered k ->
  binds c = (3 * k)%nat ->
  exists c', connectedCallback c = Ok c' /\
             listeners c' = registered (S k) /\
             binds c' = (3 * S k)%nat /\
             has_content (handles c') = true /\
             instance c' = instance c.
Proof.
  intros Hl Hb.
  destruct (render_queries (props (instance c))) as (Hc & _).
  unfold connectedCallback. rewrite Hc. cbn [negb].
  eexists. split; [reflexivity|]. cbn [listeners binds handles has_content instance].
  pose proof (registered_bound_below k) as H0.
  rewrite Hl, Hb.
  rewrite (addEventListener_fresh _ _ _ _ H0).
  assert (H1 : bound_below (S (3 * k))
                 (registered k
                  ++ [{| on := "touchstart";
                         callback_of := Bound m_onTouchStart (3 * k) |}])).
  { apply Forall_app. split.
    - apply (bound_below_weaken (3 * k)); [lia|exact H0].
    - repeat constructor. eexists. eexists. split; [reflexivity|lia]. }
  rewrite (addEventListener_fresh _ _ _ _ H1).
  assert (H2 : bound_below (S (S (3 * k)))
                 ((registered k
                   ++ [{| on := "touchstart";
                          callback_of := Bound m_onTouchStart (3 * k) |}])
                  ++ [{| on := "touchmove";
                         callback_of := Bound m_onTouchMove (S (3 * k)) |}])).
  { apply Forall_app. split.
    - apply (bound_below_weaken (S (3 * k))); [lia|exact H1].
    - repeat constructor. eexists. eexists. split; [reflexivity|lia]. }
  rewrite (addEventListener_fresh _ _ _ _ H2).
  split; [|split; [lia|split; reflexivity]].
  cbn [registered]. rewrite <- !app_assoc. reflexivity.
Qed.

Lemma disconnect_step (c : Component) (k : nat) :
  listeners c = registered k ->
  has_content (handles c) = true ->
  disconnectedCallback c = Ok c.
Proof.
  intros Hl Hc. unfold disconnectedCallback. rewrite Hc, Hl.
  pose proof (registered_bound_below k) as H0.
  rewrite !(removeEventListener_method _ _ _ _ H0).
  rewrite <- Hl. destruct c. reflexivity.
Qed.

(** Once a callback of [connectedCallback] has run, nothing throws and
    every further callback adds its three listeners. *)
Lemma live_connected (ops : list lifecycle) :
  forall (waiting : nat) (c : Component) (k : nat),
    listeners c = registered k ->
    binds c = (3 * k)%nat ->
    has_content (handles c) = true ->
    exists c' n, live ops waiting c = Ok (c', n) /\
                 listeners c' = registered (k + settled ops waiting) /\
                 instance c' = instance c.
Proof.
  induction ops as [|op ops IH]; intros waiting c k Hl Hb Hc.
  - exists c, waiting. cbn [live settled]. rewrite Nat.add_0_r.
    repeat split. exact Hl.
  - destruct op; cbn [live settled].
    + apply IH; assumption.
    + destruct waiting as [|n]; [apply IH; assumption|].
      destruct (connect_step c k Hl Hb) as (c1 & E & Hl1 & Hb1 & Hc1 & Hi1).
      rewrite E. destruct (IH n c1 (S k) Hl1 Hb1 Hc1) as (c' & n' & E' & Hl' & Hi').
      exists c', n'. split; [exact E'|]. split; [|congruence].
      rewrite Hl'. f_equal. lia.
    + rewrite (disconnect_step c k Hl Hc). apply IH; assumption.
Qed.

Lemma live_created (p : Props) (ops : list lifecycle) :
  forall waiting,
    if removed_early ops waiting
    then live ops waiting (created p) = TypeError
    else exists c n, live ops waiting (created p) = Ok (c, n) /\
                     listeners c = registered (settled ops waiting) /\
                     instance c = connected p.
Proof.
  induction ops as [|op ops IH]; intros waiting.
  - cbn [removed_early live settled]. exists (created p), waiting.
    repeat split.
  - destruct op; cbn [removed_early live settled].
    + apply IH.
    + destruct waiting as [|n]; [apply IH|].
      destruct (connect_step (created p) 0 eq_refl eq_refl)
        as (c1 & E & Hl1 & Hb1 & Hc1 & Hi1).
      rewrite E.
      destruct (live_connected ops n c1 1 Hl1 Hb1 Hc1) as (c' & n' & E' & Hl' & Hi').
      exists c', n'. split; [exact E'|]. split; [exact Hl'|].
      rewrite Hi', Hi1. reflexivity.
    + reflexivity.
Qed.

(** X13.  [disconnectedCallback] removes no listener: it names the
    methods, while the callback of [connectedCallback] registered bound
    copies of them; and that callback runs only when the update has
    completed.  For a new element and any sequence of connections,
    completed updates and disconnections: if the element is disconnected
    before the first callback has run, that disconnection throws,
    [_content] being undefined; otherwise nothing throws and the content
    element ends with the three listeners of every callback that has run,
    in order.  In particular an element inserted and removed at once
    throws. *)
Theorem listeners_accumulate (p : Props) (ops : list lifecycle) :
  (if removed_early ops 0
   then live ops 0 (created p) = TypeError
   else exists c n, live ops 0 (created p) = Ok (c, n) /\
                    listeners c = registered (settled ops 0) /\
                    List.length (listeners c) = (3 * settled ops 0)%nat /\
                    instance c = connected p) /\
  live [Connect; Disconnect] 0 (created p) = TypeError /\
  (forall c, connectedCallback (created p) = Ok c ->
             disconnectedCallback c = Ok c).
Proof.
  assert (Hlen : forall k, List.length (registered k) = (3 * k)%nat).
  { induction k as [|k IH]; [reflexivity|].
    cbn [registered]. rewrite List.length_app, IH. cbn [List.length]. lia. }
  split; [|split].
  - pose proof (live_created p ops 0) as H.
    destruct (removed_early ops 0); [exact H|].
    destruct H as (c & n & E & Hl & Hi).
    exists c, n. split; [exact E|]. split; [exact Hl|]. split; [|exact Hi].
    rewrite Hl. apply Hlen.
  - reflexivity.
  - intros c E.
    destruct (connect_step (created p) 0 eq_refl eq_refl)
      as (c1 & E1 & Hl1 & _ & Hc1 & _).
    rewrite E in E1. injection E1 as <-.
    apply (disconnect_step c 1 Hl1 Hc1).
Qed.

Lemma dispatch_touchend_registered (k : nat) (e : Touch) (now : Z) :
  forall w,
    fold_left
      (fun w l =>
         if String.eqb (on l) "touchend"
         then match callback_of l with
              | Bound m _ => run_method m e now w
              | Method _ => w
              end
         else w)
      (registered k) w
    = Nat.iter k (run_method m_onTouchEnd e now) w.
Proof.
  induction k as [|k IH]; intros w; [reflexivity|].
  cbn [registered]. rewrite fold_left_app, IH. reflexivity.
Qed.

Lemma onTouchEnd_requests_one (e : Touch) (now : Z) (w : DwSwipeable)
      (t sx sy : num) :
  _translateX w = Some t ->
  _touchStartPoints w = Some (sx, sy) ->
  exists cb, run_method m_onTouchEnd e now w = requestAnimationFrame cb w.
Proof.
  intros Hx Hs. cbn [run_method]. unfold _onTouchEnd. rewrite Hx, Hs.
  cbn [is_undefined]. destruct (_ || _); eexists; reflexivity.
Qed.

(** X14.  On an element that was connected [k] times, one touch end while
    a transform is in progress runs [_onTouchEnd] [k] times and starts [k]
    animations at once: [k] steps wait for the next frame. *)
Theorem touch_end_per_connection (c : Component) (k : nat) (e : Touch) (now : Z)
        (t sx sy : num) :
  listeners c = registered k ->
  _translateX (instance c) = Some t ->
  _touchStartPoints (instance c) = Some (sx, sy) ->
  frameRequests (instance c) = [] ->
  instance (dispatch_touch "touchend" e now c)
  = Nat.iter k (run_method m_onTouchEnd e now) (instance c) /\
  List.length (frameRequests (instance (dispatch_touch "touchend" e now c))) = k /\
  _translateX (instance (dispatch_touch "touchend" e now c)) = Some t.
Proof.
  intros Hl Hx Hs Hf.
  assert (E : instance (dispatch_touch "touchend" e now c)
              = Nat.iter k (run_method m_onTouchEnd e now) (instance c)).
  { unfold dispatch_touch. cbn [instance]. rewrite Hl.
    apply dispatch_touchend_registered. }
  rewrite E. split; [reflexivity|].
  assert (Hgen : forall n,
             List.length
               (frameRequests (Nat.iter n (run_method m_onTouchEnd e now) (instance c)))
             = n /\
             _translateX (Nat.iter n (run_method m_onTouchEnd e now) (instance c))
             = Some t /\
             _touchStartPoints
               (Nat.iter n (run_method m_onTouchEnd e now) (instance c))
             = Some (sx, sy)).
  { induction n as [|n (IH1 & IH2 & IH3)].
    - cbn [Nat.iter nat_rect]. rewrite Hf. repeat split; assumption.
    - rewrite Nat.iter_succ.
      destruct (onTouchEnd_requests_one e now _ t sx sy IH2 IH3) as (cb & Ecb).
      rewrite Ecb. unfold requestAnimationFrame.
      cbn [frameRequests _translateX _touchStartPoints set_frameRequests].
      rewrite List.length_app, IH1. cbn [List.length].
      repeat split; try assumption. lia. }
  destruct (Hgen k) as (H1 & H2 & _). split; assumption.
Qed.

Lemma touch_end_per_connection_witness :
  List.length
    (frameRequests
       (instance
          (dispatch_touch "touchend" {| clientX := -150; clientY := 0 |} 1100
             {| instance := tracking_left_150;
                handles := handles (created demo_props);
                listeners := registered 2;
                binds := 6 |})))
  = 2%nat.
Proof.
  refine (proj1 (proj2 (touch_end_per_connection
                          {| instance := tracking_left_150;
                             handles := handles (created demo_props);
                             listeners := registered 2;
                             binds := 6 |}
                          2 {| clientX := -150; clientY := 0 |} 1100
                          (Fin (-150)) (Fin 0) (Fin 0)
                          eq_refl eq_refl eq_refl eq_refl))).
Defined.

(** ** Animations that overlap *)

(** A step that finds no offset, or [NaN], stores [NaN] and requests
    itself again. *)
Lemma orphan_frame (cb : callback) (s : DwSwipeable) :
  frameRequests s = [cb] ->
  _translateX s = None \/ _translateX s = Some NaN ->
  _translateX (animation_frame s) = Some NaN /\
  _content (style (animation_frame s)) = content_transform NaN /\
  frameRequests (animation_frame s) = [cb] /\
  dispatched (animation_frame s) = dispatched s.
Proof.
  intros Hf Hx. rewrite (animation_frame_single s cb Hf).
  assert (Ht : to_num (_translateX s) = NaN).
  { destruct Hx as [-> | ->]; reflexivity. }
  destruct cb as [d p|d p]; cbn [run_callback].
  - unfold swipe_frame. cbn [_translateX set_frameRequests props].
    rewrite Ht.
    assert (E : swipe_transformX d p (of_Z (offsetWidth (props s))) NaN = NaN).
    { unfold swipe_transformX. destruct d; destruct p; reflexivity. }
    rewrite E. repeat split.
  - unfold reset_frame. cbn [_translateX set_frameRequests props].
    rewrite Ht.
    assert (E1 : reset_arrived d NaN = false) by (destruct d; reflexivity).
    assert (E2 : reset_transformX d p NaN = NaN).
    { unfold reset_transformX. destruct d; destruct p; reflexivity. }
    rewrite E1, E2. repeat split.
Qed.

Lemma orphan_frames (cb : callback) (k : nat) :
  forall s,
    frameRequests s = [cb] ->
    _translateX s = None \/ _translateX s = Some NaN ->
    _translateX (run_frames (S k) s) = Some NaN /\
    _content (style (run_frames (S k) s)) = content_transform NaN /\
    frameRequests (run_frames (S k) s) = [cb] /\
    dispatched (run_frames (S k) s) = dispatched s.
Proof.
  induction k as [|k IH]; intros s Hf Hx;
    destruct (orphan_frame cb s Hf Hx) as (H1 & H2 & H3 & H4).
  - cbn [run_frames]. repeat split; assumption.
  - change (run_frames (S (S k)) s) with (run_frames (S k) (animation_frame s)).
    destruct (IH (animation_frame s) H3 (or_intror H1)) as (I1 & I2 & I3 & I4).
    repeat split; try assumption. congruence.
Qed.

(** X15.  Nothing keeps two animations from running at once (a second
    touch end while a commit runs starts one).  When a commit step finds
    the width reached while another step is waiting behind it, it
    dispatches and clears the offset; the other step then reads
    [undefined], stores [NaN], writes [translateX(NaNpx)] to the content
    and requests itself again, at that frame and at every later one: the
    second animation never ends, and dispatches nothing. *)
Theorem overlapping_animation_never_ends (s : DwSwipeable) (d : direction)
        (p : num) (cb : callback) (x : Q) :
  frameRequests s = [swipe_step d p; cb] ->
  _translateX s = Some (Fin x) ->
  inject_Z (offsetWidth (props s)) <= Qabs x ->
  forall k,
    _translateX (run_frames (S k) s) = Some NaN /\
    _content (style (run_frames (S k) s)) = content_transform NaN /\
    frameRequests (run_frames (S k) s) = [cb] /\
    dispatched (run_frames (S k) s) = dispatched (_dispatchAction d s).
Proof.
  intros Hf Hx Harr.
  set (s1 := set_translateX None (_dispatchAction d (set_frameRequests [] s))).
  assert (E1 : animation_frame s = run_callback cb s1).
  { unfold animation_frame. rewrite Hf. cbn [fold_left run_callback].
    unfold swipe_frame at 1. cbn [_translateX set_frameRequests props].
    rewrite Hx. unfold ge. js.
    apply Qle_bool_iff in Harr. rewrite Harr. reflexivity. }
  assert (Hs1 : frameRequests (set_frameRequests [cb] s1) = [cb]) by reflexivity.
  assert (Hx1 : _translateX (set_frameRequests [cb] s1) = None) by reflexivity.
  assert (E2 : animation_frame s = animation_frame (set_frameRequests [cb] s1)).
  { rewrite E1. rewrite (animation_frame_single _ cb Hs1). f_equal.
    unfold s1, set_frameRequests, set_translateX.
    cbn [props _touchStartPoints _touchStartTime _translateX _scaleX
         _placeholderTextScaleX style dispatched frameRequests].
    rewrite dispatchAction_frameRequests. reflexivity. }
  assert (Hd1 : dispatched (set_frameRequests [cb] s1)
                = dispatched (_dispatchAction d s)).
  { unfold s1. cbn [dispatched set_frameRequests set_translateX].
    apply dispatchAction_dispatched; reflexivity. }
  intros k.
  change (run_frames (S k) s) with (run_frames k (animation_frame s)).
  rewrite E2.
  change (run_frames k (animation_frame (set_frameRequests [cb] s1)))
    with (run_frames (S k) (set_frameRequests [cb] s1)).
  destruct (orphan_frames cb k _ Hs1 (or_introl Hx1)) as (H1 & H2 & H3 & H4).
  repeat split; try assumption. congruence.
Qed.

Lemma overlapping_animation_never_ends_witness :
  _translateX (run_frames 9 (_swipe (_swipe (tracking (-300))))) = Some NaN /\
  dispatched (run_frames 9 (_swipe (_swipe (tracking (-300)))))
  = [{| type := "action"; detail_name := "DELETE" |}].
Proof.
  assert (Harr : inject_Z (offsetWidth (props (_swipe (_swipe (tracking (-300))))))
                 <= Qabs (-300)).
  { vm_compute. discriminate. }
  destruct (overlapping_animation_never_ends (_swipe (_swipe (tracking (-300))))
              LEFT _ _ (-300) eq_refl eq_refl Harr 8%nat)
    as (H1 & _ & _ & H4).
  split; [exact H1|exact H4].
Defined.

(** ** The animation loops in binary64 *)

Section Binary64Loops.

Import Binary64.






























(** The second touch end of the two gestures above does call [_swipe] and
    [_reset]. *)
Example second_touch_end_commits :
  _onTouchEnd (touch_at (-156) 0) 1065 committing_touched_again
  = Ok (_swipe committing_touched_again).
Proof. vm_compute. reflexivity. Qed.

Example second_touch_end_resets :
  _onTouchEnd (touch_at 40 5) 1510 resetting_touched_again
  = Ok (_reset resetting_touched_again).
Proof. vm_compute. reflexivity. Qed.

(** A fast swipe of the demo widget to -150: twelve frames of 12.5 pixels
    reach -300 and the thirteenth dispatches. *)
Example commit_from_150_left :
  _translateX (run_frames 12 (_swipe (tracking (of_Z (-150))))) = Some (of_Z (-300)) /\
  frameRequests (run_frames 12 (_swipe (tracking (of_Z (-150)))))
  = [swipe_step LEFT (div (of_Z 25) (of_Z 2))] /\
  dispatched (run_frames 12 (_swipe (tracking (of_Z (-150))))) = [] /\
  _translateX (run_frames 13 (_swipe (tracking (of_Z (-150))))) = None /\
  frameRequests (run_frames 13 (_swipe (tracking (of_Z (-150))))) = [] /\
  dispatched (run_frames 13 (_swipe (tracking (of_Z (-150)))))
  = [{| type := "action"; detail_name := "DELETE" |}] /\
  _content (style (run_frames 13 (_swipe (tracking (of_Z (-150))))))
  = content_transform (of_Z (-300)).
Proof. vm_compute. repeat split. Qed.

(** A commit of the demo widget from 200: the step is 100 / 12, rounded;
    twelve frames reach the largest number below 300, the thirteenth stops
    at 300 and the fourteenth dispatches. *)
Example commit_from_200_right :
  _translateX (run_frames 12 (_swipe (tracking (of_Z 200)))) = Some just_below_300 /\
  _translateX (run_frames 13 (_swipe (tracking (of_Z 200)))) = Some (of_Z 300) /\
  dispatched (run_frames 13 (_swipe (tracking (of_Z 200)))) = [] /\
  _translateX (run_frames 14 (_swipe (tracking (of_Z 200)))) = None /\
  dispatched (run_frames 14 (_swipe (tracking (of_Z 200))))
  = [{| type := "action"; detail_name := "DELETE" |}].
Proof. vm_compute. repeat split. Qed.

(** A commit of the demo widget from the largest number below 300 never
    ends: the step is smaller than half the distance to 300, the sum is
    rounded back to the offset, and every frame requests the next one. *)
Example commit_below_300_never_ends :
  forall n,
    run_frames n (_swipe (tracking just_below_300)) = _swipe (tracking just_below_300).
Proof.
  assert (H : animation_frame (_swipe (tracking just_below_300))
              = _swipe (tracking just_below_300)) by (vm_compute; reflexivity).
  induction n as [|n IH]; [reflexivity|].
  cbn [run_frames]. rewrite H. exact IH.
Qed.

(** A reset of the demo widget from -100: the step is 100 / 12, rounded;
    twelve frames leave -2^-48, the thirteenth stops at 0 and the
    fourteenth ends the reset. *)
Example reset_from_100_left :
  _translateX (run_frames 12 (_reset (tracking (of_Z (-100)))))
  = Some (S754_finite true 4503599627370496 (-100)) /\
  _translateX (run_frames 13 (_reset (tracking (of_Z (-100))))) = Some zero /\
  frameRequests (run_frames 13 (_reset (tracking (of_Z (-100)))))
  = [reset_step LEFT (abs (div (of_Z (-100)) (of_Z 12)))] /\
  _translateX (run_frames 14 (_reset (tracking (of_Z (-100))))) = None /\
  frameRequests (run_frames 14 (_reset (tracking (of_Z (-100))))) = [] /\
  dispatched (run_frames 14 (_reset (tracking (of_Z (-100))))) = [].
Proof. vm_compute. repeat split. Qed.

(** A reset of the demo widget from the largest number below 0 never
    ends: the step is rounded to 0. *)
Example reset_below_zero_never_ends :
  forall n,
    run_frames n (_reset (tracking just_below_zero)) = _reset (tracking just_below_zero).
Proof.
  assert (H : animation_frame (_reset (tracking just_below_zero))
              = _reset (tracking just_below_zero)) by (vm_compute; reflexivity).
  induction n as [|n IH]; [reflexivity|].
  cbn [run_frames]. rewrite H. exact IH.
Qed.

(** The literals and the frame count of the default animation time. *)
Example literals :
  literal_0_06 = S754_finite false 8646911284551352 (-57) /\
  literal_0_3 = S754_finite false 5404319552844595 (-54) /\
  mul (of_Z 200) literal_0_06 = of_Z 12.
Proof. vm_compute. repeat split. Qed.

End Binary64Loops.
